(** * ncdu directory scanner (src/dir_scan.c): model and verified properties

    The scanner walks a directory tree through the process-wide current
    directory, classifies every entry from its lstat() result and reports the
    tree to [dir_output] as a stream of [item(d)] / [item(NULL)] calls followed
    by one [final(fail)] call.

    The C functions are embedded as Rocq functions over an explicit state (the
    globals [curdev], [dir_curpath], the last-error slot and the calls received
    by [dir_output]).  Every answer of the operating system (lstat, chdir,
    opendir/readdir/closedir) is an input of the model: a directory is described
    by what its listing returns and by what the system answers for each name
    that is looked up while the scanner walks that listing. *)

From Stdlib Require Import ZArith List String Ascii Bool Lia.
Import ListNotations.
Local Open Scope string_scope.
Local Open Scope list_scope.
Local Open Scope Z_scope.

(** ** File flags and [struct dir] *)

Module Flags.

(** Modelled from the spec: the [FF_*] bit masks are declared in global.h,
    which is not part of the sources at hand.  The spec describes the flags as
    a set of independent boolean facets, so each one is a distinct bit of
    [d->flags]; the values below are the ones of the ncdu header. *)
Definition FF_DIR   : Z := 1.
Definition FF_FILE  : Z := 2.
Definition FF_ERR   : Z := 4.
Definition FF_OTHFS : Z := 8.
Definition FF_EXL   : Z := 16.
Definition FF_HLNKC : Z := 64.

End Flags.
Export Flags.

(** Modelled from the spec: [struct dir] (global.h) is the spec's Entry: a
    name, the identity [ino]/[dev], the sizes [size] (on disk) and [asize]
    (apparent), and the flag bits. *)
Record dir : Type := mkdir {
  name  : string;
  ino   : Z;
  dev   : Z;
  size  : Z;
  asize : Z;
  flags : Z
}.

(** [d->flags |= f] *)
Definition or_flags (d : dir) (f : Z) : dir :=
  mkdir (name d) (ino d) (dev d) (size d) (asize d) (Z.lor (flags d) f).

(** [d->flags & f], as a C truth value *)
Definition has_flags (d : dir) (f : Z) : bool :=
  negb (Z.land (flags d) f =? 0).

(** Modelled from the spec: [dir_createstruct] (dir_common.c) is not part of
    the sources at hand.  It hands out the [struct dir] for a name; the spec's
    classifier leaves sizes at zero and only ever adds flags, so the fresh
    structure carries the name and is zero everywhere else. *)
Definition dir_createstruct (nm : string) : dir := mkdir nm 0 0 0 0 0.

(** ** [struct stat] and the mode macros of sys/stat.h *)

Record stat : Type := mkstat {
  st_dev    : Z;
  st_ino    : Z;
  st_mode   : Z;
  st_nlink  : Z;
  st_size   : Z;
  st_blocks : Z
}.

Definition S_IFMT  : Z := 61440.  (* 0170000 *)
Definition S_IFDIR : Z := 16384.  (* 0040000 *)
Definition S_IFREG : Z := 32768.  (* 0100000 *)

Definition S_ISDIR (m : Z) : bool := Z.land m S_IFMT =? S_IFDIR.
Definition S_ISREG (m : Z) : bool := Z.land m S_IFMT =? S_IFREG.

(** [# define S_BLKSIZE 512] *)
Definition S_BLKSIZE : Z := 512.

(** ** Classifier *)

(** [stat_to_dir(d, fs)].  The globals it reads, [dir_scan_smfs] and [curdev],
    are explicit arguments. *)
Definition stat_to_dir (dir_scan_smfs curdev : Z) (d : dir) (fs : stat) : dir :=
  let d := mkdir (name d) (st_ino fs) (st_dev fs) (size d) (asize d) (flags d) in
  let d :=
    if S_ISREG (st_mode fs) then or_flags d FF_FILE
    else if S_ISDIR (st_mode fs) then or_flags d FF_DIR
    else d in
  let d :=
    if negb (S_ISDIR (st_mode fs)) && (st_nlink fs >? 1)
    then or_flags d FF_HLNKC else d in
  let d :=
    if negb (dir_scan_smfs =? 0) && negb (curdev =? st_dev fs)
    then or_flags d FF_OTHFS else d in
  if negb (has_flags d (Z.lor FF_OTHFS FF_EXL))
  then mkdir (name d) (ino d) (dev d)
             (st_blocks fs * S_BLKSIZE) (st_size fs) (flags d)
  else d.

(** ** The operating system's answers *)

(** What one opendir(".") .. closedir() session yields: the [d_name]s handed
    out by successive readdir() calls until it returns NULL, the value of
    [errno] at that point, and the return value of closedir(). *)
Record dirstream : Type := mkdirstream {
  rd_names    : list string;
  rd_errno    : Z;
  closedir_rc : Z
}.

(** [fsobj]: what the system answers when the scanner handles one name.
    [lstat_res] is the result of lstat() on it ([None]: the call failed) and
    [cd] what happens on chdir() into it.  After a successful chdir,
    [od] is the result of opendir(".") ([None]: NULL), [sub n] the answers for
    the name [n] looked up from there and [up] the return value of
    chdir(".."). *)
Inductive fsobj : Type :=
| Obj (lstat_res : option stat) (cd : chdir_res)
with chdir_res : Type :=
| ChdirFail
| ChdirOk (od : option dirstream) (sub : string -> fsobj) (up : Z).

Scheme fsobj_mut := Induction for fsobj Sort Prop
  with chdir_res_mut := Induction for chdir_res Sort Prop.

(** ** Entry lister *)

(** The test of line 96: the name is "." or "..". *)
Definition is_dot_or_dotdot (nm : string) : bool :=
  match nm with
  | String "."%char EmptyString => true
  | String "."%char (String "."%char EmptyString) => true
  | _ => false
  end.

(** The readdir() loop of [dir_read].  The buffer of nul-separated names is
    represented by the list of the C strings it holds; the closing empty name
    is the end of the list. *)
Fixpoint dir_read_loop (items : list string) (buf : list string) : list string :=
  match items with
  | [] => buf
  | d_name :: items' =>
      if is_dot_or_dotdot d_name then dir_read_loop items' buf
      else dir_read_loop items' (buf ++ [d_name])
  end.

(** [dir_read(&err)]: the returned buffer ([None] for NULL) and the new value
    of [*err]. *)
Definition dir_read (od : option dirstream) (err : Z) : option (list string) * Z :=
  match od with
  | None => (None, 1)
  | Some ds =>
      let buf := dir_read_loop (rd_names ds) [] in
      let err := if negb (rd_errno ds =? 0) then 1 else err in
      let err := if closedir_rc ds <? 0 then 1 else err in
      (Some buf, err)
  end.

(** ** Scanner state and configuration *)

(** A call received by [dir_output]. *)
Inductive call : Type :=
| item (d : option dir)
| final (fail : Z).

(** Modelled from the spec: the path stack ([dir_curpath], [dir_curpath_set],
    [dir_curpath_enter], [dir_curpath_leave] of dir_common.c) is not part of
    the sources at hand.  The current path is kept as the root path followed by
    the segments entered so far. *)
Definition path : Type := list string.

Record state : Type := mkstate {
  curdev      : Z;
  dir_curpath : path;
  lasterr     : option path;
  output      : list call
}.

Record config : Type := mkconfig {
  dir_scan_smfs : Z;                 (* stay on the same filesystem *)
  exclude_match : path -> bool;      (* the exclusion matcher *)
  CYGWIN        : bool;              (* built with __CYGWIN__ defined *)
  output_final  : Z -> Z             (* the verdict of dir_output.final *)
}.

Definition M (A : Type) : Type := state -> A * state.

Definition ret {A} (a : A) : M A := fun s => (a, s).
Definition bind {A B} (m : M A) (f : A -> M B) : M B :=
  fun s => let (a, s') := m s in f a s'.

Notation "x <- m ;; k" := (bind m (fun x => k))
  (at level 61, m at next level, right associativity).
Notation "m ;; k" := (bind m (fun _ => k))
  (at level 61, right associativity).

Definition get_curpath : M path := fun s => (dir_curpath s, s).
Definition get_curdev : M Z := fun s => (curdev s, s).
Definition set_curdev (v : Z) : M unit :=
  fun s => (tt, mkstate v (dir_curpath s) (lasterr s) (output s)).

(** Modelled from the spec: [dir_curpath_set]; a null argument (an unresolved
    root) leaves no path. *)
Definition dir_curpath_set (p : option string) : M unit :=
  fun s => (tt, mkstate (curdev s)
                        (match p with Some r => [r] | None => [] end)
                        (lasterr s) (output s)).

(** Modelled from the spec: [dir_curpath_enter]. *)
Definition dir_curpath_enter (nm : string) : M unit :=
  fun s => (tt, mkstate (curdev s) (dir_curpath s ++ [nm]) (lasterr s) (output s)).

(** Modelled from the spec: [dir_curpath_leave]. *)
Definition dir_curpath_leave : M unit :=
  fun s => (tt, mkstate (curdev s) (removelast (dir_curpath s)) (lasterr s) (output s)).

(** Modelled from the spec: [dir_setlasterr], the last-error sink. *)
Definition dir_setlasterr (p : option path) : M unit :=
  fun s => (tt, mkstate (curdev s) (dir_curpath s) p (output s)).

(** [dir_output.item(d)] *)
Definition dir_output_item (d : option dir) : M unit :=
  fun s => (tt, mkstate (curdev s) (dir_curpath s) (lasterr s) (output s ++ [item d])).

(** [dir_output.final(fail)] *)
Definition dir_output_final (cfg : config) (fail : Z) : M Z :=
  fun s => (output_final cfg fail,
            mkstate (curdev s) (dir_curpath s) (lasterr s) (output s ++ [final fail])).

(** [strchr(s, c) != NULL] *)
Fixpoint strchr (s : string) (c : ascii) : bool :=
  match s with
  | EmptyString => false
  | String a s' => if Ascii.eqb a c then true else strchr s' c
  end.

(** ** Recursive walker *)

Section Walker.

Variable cfg : config.

(** The loop of [dir_walk]: [for(cur=dir; !fail&&cur&&*cur; cur+=strlen(cur)+1)].
    [scan_item cur] is [dir_scan_item] run against the system's answers for the
    name [cur] in the directory being walked. *)
Fixpoint dir_walk_loop (scan_item : string -> dir -> M Z)
         (fail : Z) (cur : list string) : M Z :=
  if negb (fail =? 0) then ret fail
  else
    match cur with
    | [] => ret fail
    | EmptyString :: _ => ret fail
    | nm :: cur' =>
        dir_curpath_enter nm ;;
        let d := dir_createstruct nm in
        fail <- scan_item nm d ;;
        dir_curpath_leave ;;
        dir_walk_loop scan_item fail cur'
    end.

(** [dir_walk(dir)]; [dir] may be NULL. *)
Definition dir_walk (scan_item : string -> dir -> M Z)
           (dir : option (list string)) : M Z :=
  match dir with
  | None => ret 0
  | Some buf => dir_walk_loop scan_item 0 buf
  end.

(** The part of [dir_scan_item] before the dispatch: the Cygwin name check,
    exclusion, lstat() and classification. *)
Definition dir_scan_item_prepare (lstat_res : option stat) (d : dir) : M dir :=
  d <- (if CYGWIN cfg && (strchr (name d) "/" || strchr (name d) "\")
        then p <- get_curpath ;; dir_setlasterr (Some p) ;; ret (or_flags d FF_ERR)
        else ret d) ;;
  p <- get_curpath ;;
  let d := if exclude_match cfg p then or_flags d FF_EXL else d in
  d <- (if negb (has_flags d (Z.lor FF_ERR FF_EXL))
        then match lstat_res with
             | None => p <- get_curpath ;; dir_setlasterr (Some p) ;;
                       ret (or_flags d FF_ERR)
             | Some _ => ret d
             end
        else ret d) ;;
  if negb (has_flags d (Z.lor FF_ERR FF_EXL))
  then match lstat_res with
       | Some st => cd <- get_curdev ;;
                    ret (stat_to_dir (dir_scan_smfs cfg) cd d st)
       | None => ret d
       end
  else ret d.

(** [dir_scan_item(d)] and [dir_scan_recurse(d)], against the system's answers
    for the item. *)
Fixpoint dir_scan_item (o : fsobj) (d : dir) {struct o} : M Z :=
  match o with
  | Obj lstat_res cd =>
      let fail := 0 in
      d <- dir_scan_item_prepare lstat_res d ;;
      (if has_flags d FF_DIR && negb (has_flags d (Z.lor (Z.lor FF_ERR FF_EXL) FF_OTHFS))
       then dir_scan_recurse cd d ;; ret tt   (* the result is not kept *)
       else if has_flags d FF_DIR
       then dir_output_item (Some d) ;; dir_output_item None
       else dir_output_item (Some d)) ;;
      ret fail
  end

with dir_scan_recurse (cd : chdir_res) (d : dir) {struct cd} : M Z :=
  match cd with
  | ChdirFail =>
      p <- get_curpath ;; dir_setlasterr (Some p) ;;
      let d := or_flags d FF_ERR in
      dir_output_item (Some d) ;;
      dir_output_item None ;;
      ret 0
  | ChdirOk od sub up =>
      let fail := 0 in
      let (dir, fail) := dir_read od fail in
      match dir with
      | None =>
          p <- get_curpath ;; dir_setlasterr (Some p) ;;
          let d := or_flags d FF_ERR in
          dir_output_item (Some d) ;;
          dir_output_item None ;;
          ret (if negb (up =? 0) then 1 else 0)
      | Some _ =>
          let d := if negb (fail =? 0) then or_flags d FF_ERR else d in
          dir_output_item (Some d) ;;
          fail <- dir_walk (fun cur => dir_scan_item (sub cur)) dir ;;
          dir_output_item None ;;
          if (fail =? 0) && negb (up =? 0) then ret 1
          else ret fail
      end
  end.

End Walker.

(** ** Scan driver *)

(** What the system answers to [dir_scan_process]: the result of [path_real]
    ([None] for NULL), the return value of [path_chdir], the result of
    lstat(".") ([None]: the call failed, and [fs] keeps the indeterminate
    contents [w_fs_uninit] it had as an automatic variable), the result of
    opendir(".") and the answers for the names looked up from the root. *)
Record world : Type := mkworld {
  w_path_real  : option string;
  w_path_chdir : Z;
  w_lstat      : option stat;
  w_fs_uninit  : stat;
  w_opendir    : option dirstream;
  w_sub        : string -> fsobj
}.

(** Modelled from the spec: the path stack's [current()], the string held in
    [dir_curpath]. *)
Definition curpath_string (p : path) : string := String.concat "/" p.

(** An empty block: the branches the source only marks as TODO. *)
Definition skip : M unit := ret tt.

Definition is_null {A} (p : option A) : bool :=
  match p with None => true | Some _ => false end.

(** [dir_scan_process()] *)
Definition dir_scan_process (cfg : config) (w : world) : M Z :=
  let fail := 0 in
  let path := w_path_real w in
  (if is_null path then skip else ret tt) ;;
  dir_curpath_set path ;;
  (if w_path_chdir w <? 0 then skip else ret tt) ;;
  let fs := match w_lstat w with Some st => st | None => w_fs_uninit w end in
  (if is_null (w_lstat w) || negb (S_ISDIR (st_mode fs)) then skip else ret tt) ;;
  let (dir, fail) := dir_read (w_opendir w) fail in
  (if is_null dir then skip else ret tt) ;;
  set_curdev (st_dev fs) ;;
  p <- get_curpath ;;
  let d := dir_createstruct (curpath_string p) in
  let d := if negb (fail =? 0) then or_flags d FF_ERR else d in
  cd <- get_curdev ;;
  let d := stat_to_dir (dir_scan_smfs cfg) cd d fs in
  dir_output_item (Some d) ;;
  fail <- dir_walk (fun cur => dir_scan_item cfg (w_sub w cur)) dir ;;
  dir_output_item None ;;
  dir_output_final cfg fail.

(** [dir_scan_init(path)].  The scan-phase marker [pstate] it also sets is
    read by other parts of ncdu only and is not part of the state. *)
Definition dir_scan_init (path : string) : M unit :=
  dir_curpath_set (Some path) ;;
  dir_setlasterr None.

(** The state a scan starts from: [dir_scan_init] has run and nothing has
    been sent to [dir_output] yet. *)
Definition init_state (requested : string) : state :=
  snd (dir_scan_init requested (mkstate 0 [] None [])).

(** ** Reading the event stream *)

(** An open event: [item] called with a directory entry. *)
Definition is_open (c : call) : bool :=
  match c with
  | item (Some d) => has_flags d FF_DIR
  | _ => false
  end.

(** A close event: [item] called with NULL. *)
Definition is_close (c : call) : bool :=
  match c with
  | item None => true
  | _ => false
  end.

(** Stack-based replay of an event stream from nesting depth [depth]: an open
    event pushes, a close event pops; [None] when a close event finds the
    stack empty. *)
Fixpoint replay (evs : list call) (depth : nat) : option nat :=
  match evs with
  | [] => Some depth
  | c :: evs' =>
      if is_open c then replay evs' (S depth)
      else if is_close c then
        match depth with
        | O => None
        | S depth' => replay evs' depth'
        end
      else replay evs' depth
  end.

Definition count_open (evs : list call) : nat := List.length (filter is_open evs).
Definition count_close (evs : list call) : nat := List.length (filter is_close evs).

(** The entries reported in an event stream. *)
Fixpoint entries (evs : list call) : list dir :=
  match evs with
  | [] => []
  | item (Some d) :: evs' => d :: entries evs'
  | _ :: evs' => entries evs'
  end.

(** The arguments [final] was called with. *)
Fixpoint finals (evs : list call) : list Z :=
  match evs with
  | [] => []
  | final f :: evs' => f :: finals evs'
  | _ :: evs' => finals evs'
  end.

(** ** Vocabulary of the properties *)

(** [runs m s a evs]: from state [s], [m] returns [a], leaves [curdev] and
    [dir_curpath] as they were and sends exactly [evs] to [dir_output]. *)
Definition runs {A} (m : M A) (s : state) (a : A) (evs : list call) : Prop :=
  fst (m s) = a /\
  curdev (snd (m s)) = curdev s /\
  dir_curpath (snd (m s)) = dir_curpath s /\
  output (snd (m s)) = output s ++ evs.

(** The events sent to [dir_output] between two states. *)
Definition emitted (s s' : state) : list call :=
  skipn (List.length (output s)) (output s').

(** The Cygwin name check of [dir_scan_item]. *)
Definition illegal_name (cfg : config) (nm : string) : bool :=
  CYGWIN cfg && (strchr nm "/" || strchr nm "\").

(** The value computed by [dir_scan_item_prepare], as a function of the
    globals it reads. *)
Definition prepared_entry (cfg : config) (cd : Z) (p : path)
           (lstat_res : option stat) (d : dir) : dir :=
  let d1 := if illegal_name cfg (name d) then or_flags d FF_ERR else d in
  let d2 := if exclude_match cfg p then or_flags d1 FF_EXL else d1 in
  let d3 := if negb (has_flags d2 (Z.lor FF_ERR FF_EXL))
            then match lstat_res with None => or_flags d2 FF_ERR | Some _ => d2 end
            else d2 in
  if negb (has_flags d3 (Z.lor FF_ERR FF_EXL))
  then match lstat_res with
       | Some st => stat_to_dir (dir_scan_smfs cfg) cd d3 st
       | None => d3
       end
  else d3.

(** The listing came back with the error flag raised. *)
Definition listing_failed (ds : dirstream) : bool :=
  negb (rd_errno ds =? 0) || (closedir_rc ds <? 0).

(** The names a listing has collected: every [d_name] read, "." and ".."
    left out. *)
Definition collected (ds : dirstream) : list string :=
  filter (fun nm => negb (is_dot_or_dotdot nm)) (rd_names ds).

Definition nonempty (nm : string) : Prop := nm <> EmptyString.

(** The names a walk handles: the loop of [dir_walk] stops at the first empty
    name, which it takes for the end of the buffer. *)
Fixpoint walked (buf : list string) : list string :=
  match buf with
  | [] => []
  | EmptyString :: _ => []
  | nm :: buf' => nm :: walked buf'
  end.

(** [trees Q names evs]: [evs] is a sequence of subtrees, one per name of
    [names] and in that order.  A subtree is either one [item] call with a
    non-directory entry, or an [item] call with a directory entry, the
    subtrees below it and the closing [item(NULL)].  Every entry satisfies
    [Q]. *)
Inductive trees (Q : dir -> Prop) : list string -> list call -> Prop :=
| trees_nil : trees Q [] []
| trees_leaf d names rest :
    Q d -> has_flags d FF_DIR = false -> trees Q names rest ->
    trees Q (name d :: names) (item (Some d) :: rest)
| trees_node d kidnames kids names rest :
    Q d -> has_flags d FF_DIR = true -> trees Q kidnames kids -> trees Q names rest ->
    trees Q (name d :: names) (item (Some d) :: kids ++ item None :: rest).

Definition any_entry (d : dir) : Prop := True.

(** What is asked of one item: it returns 0 and emits one subtree. *)
Definition item_ok (cd0 : Z) (Q : dir -> Prop) (m : string -> dir -> M Z) : Prop :=
  forall nm s, curdev s = cd0 ->
    exists evs, runs (m nm (dir_createstruct nm)) s 0 evs /\ trees Q [nm] evs.

(** What [dir_scan_recurse] does, case by case. *)
Definition recurse_ok (cfg : config) (cd0 : Z) (Q : dir -> Prop) (cd : chdir_res) : Prop :=
  forall d s, curdev s = cd0 ->
    match cd with
    | ChdirFail =>
        runs (dir_scan_recurse cfg cd d) s 0
             [item (Some (or_flags d FF_ERR)); item None]
    | ChdirOk None _ up =>
        runs (dir_scan_recurse cfg cd d) s (if negb (up =? 0) then 1 else 0)
             [item (Some (or_flags d FF_ERR)); item None]
    | ChdirOk (Some ds) _ up =>
        exists kids,
          runs (dir_scan_recurse cfg cd d) s (if negb (up =? 0) then 1 else 0)
               (item (Some (if listing_failed ds then or_flags d FF_ERR else d))
                  :: kids ++ [item None]) /\
          trees Q (walked (dir_read_loop (rd_names ds) [])) kids
    end.

(** The contents of [fs] after the lstat(".") of [dir_scan_process]. *)
Definition root_fs (w : world) : stat :=
  match w_lstat w with Some st => st | None => w_fs_uninit w end.

(** The name given to the root entry. *)
Definition root_name (w : world) : string :=
  curpath_string (match w_path_real w with Some r => [r] | None => [] end).

(** The root entry handed to [dir_output.item]. *)
Definition root_entry (cfg : config) (w : world) : dir :=
  let d := dir_createstruct (root_name w) in
  let d := if negb (snd (dir_read (w_opendir w) 0) =? 0) then or_flags d FF_ERR else d in
  stat_to_dir (dir_scan_smfs cfg) (st_dev (root_fs w)) d (root_fs w).

(** The names walked below the root. *)
Definition root_walked (w : world) : list string :=
  match fst (dir_read (w_opendir w) 0) with
  | Some buf => walked buf
  | None => []
  end.

(** Sizes are zero under [FF_EXL] or [FF_OTHFS]. *)
Definition sizes_suppressed (d : dir) : Prop :=
  has_flags d FF_EXL = true \/ has_flags d FF_OTHFS = true ->
  size d = 0 /\ asize d = 0.

(** [FF_OTHFS] against the device [cd0] captured from the root: the flag is
    only ever set under the same-filesystem policy on a foreign device, and an
    entry that was classified (neither [FF_ERR] nor [FF_EXL]) on a foreign
    device has it. *)
Definition othfs_by_device (cfg : config) (cd0 : Z) (d : dir) : Prop :=
  (has_flags d FF_OTHFS = true -> dir_scan_smfs cfg <> 0 /\ dev d <> cd0) /\
  (dir_scan_smfs cfg <> 0 -> has_flags d FF_ERR = false -> has_flags d FF_EXL = false ->
   dev d <> cd0 -> has_flags d FF_OTHFS = true).

(** The names of the entries reported at nesting depth 0 of an event stream
    read from depth [depth]: an open event deepens the nesting, a close event
    ends one level. *)
Fixpoint top_names (evs : list call) (depth : nat) : list string :=
  match evs with
  | [] => []
  | item (Some d) :: evs' =>
      (match depth with O => [name d] | S _ => [] end)
        ++ top_names evs' (if has_flags d FF_DIR then S depth else depth)
  | item None :: evs' => top_names evs' (Nat.pred depth)
  | final _ :: evs' => top_names evs' depth
  end.

(** The type flags of an entry are consistent: a file is no directory, a
    hard-link candidate is no directory, and an excluded entry carries none of
    the flags that come from lstat(). *)
Definition entry_types_ok (d : dir) : Prop :=
  (has_flags d FF_FILE = true -> has_flags d FF_DIR = false) /\
  (has_flags d FF_HLNKC = true -> has_flags d FF_DIR = false) /\
  (has_flags d FF_EXL = true ->
   has_flags d FF_FILE = false /\ has_flags d FF_DIR = false /\
   has_flags d FF_HLNKC = false /\ has_flags d FF_OTHFS = false).

(** ** Sample filesystems *)

Module Samples.

Definition cfg0 : config := mkconfig 0 (fun _ => false) false (fun f => f).

(** lstat() results: a directory, a regular file. *)
Definition st_dir (dv i : Z) : stat := mkstat dv i 16877 2 4096 8.
Definition st_reg (dv i nlink sz blocks : Z) : stat := mkstat dv i 33188 nlink sz blocks.

(** A name that does not exist: lstat() and chdir() fail. *)
Definition enoent : fsobj := Obj None ChdirFail.

Definition file (st : stat) : fsobj := Obj (Some st) ChdirFail.

(** A readable directory with the given listing. *)
Definition directory (st : stat) (names : list string) (sub : string -> fsobj) : fsobj :=
  Obj (Some st) (ChdirOk (Some (mkdirstream ("." :: ".." :: names) 0 0)) sub 0).

Definition empty_dir (st : stat) : fsobj := directory st [] (fun _ => enoent).

(** The exclusion rule "the last segment is x". *)
Definition excludes_x (p : path) : bool := String.eqb (last p "") "x".

(** Same-filesystem policy on, [x] excluded. *)
Definition cfg_sample : config := mkconfig 1 excludes_x false (fun f => f).

Definition no_stat : stat := mkstat 0 0 0 0 0 0.

(** /r on device 1 holds: the file [a] with two links, the empty directory
    [b], the excluded directory [x] (which holds [y]), the mount point [m] of
    device 2 (which holds [k]) and the name [gone], which vanished before it
    could be stat'ed. *)
Definition sub_x (nm : string) : fsobj :=
  if String.eqb nm "y" then file (st_reg 1 11 1 100 8) else enoent.

Definition sub_m (nm : string) : fsobj :=
  if String.eqb nm "k" then file (st_reg 2 21 1 100 8) else enoent.

Definition sub_root (nm : string) : fsobj :=
  if String.eqb nm "a" then file (st_reg 1 2 2 4096 8)
  else if String.eqb nm "b" then empty_dir (st_dir 1 3)
  else if String.eqb nm "x" then directory (st_dir 1 4) ["y"] sub_x
  else if String.eqb nm "m" then directory (st_dir 2 5) ["k"] sub_m
  else enoent.

Definition w_sample : world :=
  mkworld (Some "/r") 0 (Some (st_dir 1 1)) no_stat
          (Some (mkdirstream ["."; ".."; "a"; "b"; "x"; "m"; "gone"] 0 0))
          sub_root.

(** The directory [p]: readdir() fails with EIO after "one" and "two". *)
Definition partial_stream : dirstream := mkdirstream ["."; ".."; "one"; "two"] 5 0.

Definition sub_p (nm : string) : fsobj :=
  if String.eqb nm "one" then file (st_reg 1 31 1 10 8)
  else if String.eqb nm "two" then file (st_reg 1 32 1 20 8)
  else enoent.

Definition sub_partial (nm : string) : fsobj :=
  if String.eqb nm "a" then file (st_reg 1 2 1 4096 8)
  else if String.eqb nm "p" then Obj (Some (st_dir 1 3)) (ChdirOk (Some partial_stream) sub_p 0)
  else if String.eqb nm "b" then empty_dir (st_dir 1 4)
  else enoent.

(** A root whose own listing fails partway. *)
Definition w_partial_root : world :=
  mkworld (Some "/r") 0 (Some (st_dir 1 1)) no_stat (Some partial_stream) sub_p.

(** A root that cannot be opened for listing. *)
Definition w_unreadable_root : world :=
  mkworld (Some "/r") 0 (Some (st_dir 1 1)) no_stat None (fun _ => enoent).

(** /r holds the directories [e] and [f]; [e] holds a directory [f] of its
    own.  Once inside [e], chdir("..") fails, so the process stays in /r/e
    and the name [f] of /r's listing is answered by /r/e/f. *)
Definition sub_e (nm : string) : fsobj :=
  if String.eqb nm "f" then empty_dir (st_dir 1 5) else enoent.

Definition stuck_in_e : chdir_res :=
  ChdirOk (Some (mkdirstream ["."; ".."; "f"] 0 0)) sub_e (-1).

Definition sub_no_return (nm : string) : fsobj :=
  if String.eqb nm "e" then Obj (Some (st_dir 1 2)) stuck_in_e
  else if String.eqb nm "f" then empty_dir (st_dir 1 5)
  else enoent.

Definition w_no_return : world :=
  mkworld (Some "/r") 0 (Some (st_dir 1 1)) no_stat
          (Some (mkdirstream ["."; ".."; "e"; "f"] 0 0)) sub_no_return.

(** The requested root /r/file is a regular file: it resolves, [path_chdir]
    fails and the process stays in its working directory, which holds [a];
    lstat(".") and opendir(".") answer for that directory. *)
Definition w_root_is_file : world :=
  mkworld (Some "/r/file") (-1) (Some (st_dir 1 1)) no_stat
          (Some (mkdirstream ["."; ".."; "a"] 0 0))
          (fun nm => if String.eqb nm "a" then file (st_reg 1 2 1 4096 8) else enoent).

(** The directory [p] when its listing succeeds. *)
Definition whole_stream : dirstream := mkdirstream ["."; ".."; "one"; "two"] 0 0.

(** A Cygwin build without exclusion rules. *)
Definition cfg_cygwin : config := mkconfig 0 (fun _ => false) true (fun f => f).

(** A symbolic link: neither a regular file nor a directory. *)
Definition st_lnk (dv i : Z) : stat := mkstat dv i 41471 1 7 0.

Definition s0 : state := init_state "/r".

(** The state in which [dir_walk] hands the name [nm] of /r to
    [dir_scan_item]. *)
Definition at_name (nm : string) : state := mkstate 1 ["/r"; nm] None [].

End Samples.

(** * Properties *)

(** ** Flag arithmetic *)

(** Evaluates the tests [Z.land a b =? 0] between two constant masks. *)
Ltac mask_consts :=
  repeat match goal with
         | |- context [Z.land ?a ?b =? 0] =>
             let v := eval vm_compute in (Z.land a b =? 0) in
             match v with
             | true => change (Z.land a b =? 0) with true
             | false => change (Z.land a b =? 0) with false
             end
         end.

Lemma has_flags_mask_lor (d : dir) (a b : Z) :
  has_flags d (Z.lor a b) = has_flags d a || has_flags d b.
Proof.
  unfold has_flags. rewrite Z.land_lor_distr_r.
  destruct (Z.land (flags d) a =? 0) eqn:Ha, (Z.land (flags d) b =? 0) eqn:Hb;
    simpl.
  - apply Z.eqb_eq in Ha, Hb. rewrite Ha, Hb. reflexivity.
  - apply negb_true_iff, Z.eqb_neq. intro H. apply Z.lor_eq_0_iff in H.
    apply Z.eqb_neq in Hb. tauto.
  - apply negb_true_iff, Z.eqb_neq. intro H. apply Z.lor_eq_0_iff in H.
    apply Z.eqb_neq in Ha. tauto.
  - apply negb_true_iff, Z.eqb_neq. intro H. apply Z.lor_eq_0_iff in H.
    apply Z.eqb_neq in Ha. tauto.
Qed.

Lemma has_flags_or_flags (d : dir) (f g : Z) :
  has_flags (or_flags d f) g = has_flags d g || negb (Z.land f g =? 0).
Proof.
  unfold has_flags, or_flags. simpl. rewrite Z.land_lor_distr_l.
  destruct (Z.land (flags d) g =? 0) eqn:Ha, (Z.land f g =? 0) eqn:Hb; simpl.
  - apply Z.eqb_eq in Ha, Hb. rewrite Ha, Hb. reflexivity.
  - apply negb_true_iff, Z.eqb_neq. intro H. apply Z.lor_eq_0_iff in H.
    apply Z.eqb_neq in Hb. tauto.
  - apply negb_true_iff, Z.eqb_neq. intro H. apply Z.lor_eq_0_iff in H.
    apply Z.eqb_neq in Ha. tauto.
  - apply negb_true_iff, Z.eqb_neq. intro H. apply Z.lor_eq_0_iff in H.
    apply Z.eqb_neq in Ha. tauto.
Qed.

Lemma has_flags_createstruct (nm : string) (f : Z) :
  has_flags (dir_createstruct nm) f = false.
Proof. reflexivity. Qed.

Lemma has_flags_mkdir nm i dv sz asz fl f :
  has_flags (mkdir nm i dv sz asz fl) f = negb (Z.land fl f =? 0).
Proof. reflexivity. Qed.

Lemma S_ISREG_not_DIR (m : Z) : S_ISREG m = true -> S_ISDIR m = false.
Proof.
  unfold S_ISREG, S_ISDIR. intros H. apply Z.eqb_eq in H. rewrite H. reflexivity.
Qed.

(** The single-flag tests after [stat_to_dir], in terms of the entry it was
    given and the stat result. *)
Lemma stat_to_dir_has (smfs cd : Z) (d : dir) (fs : stat) (g : Z) :
  has_flags (stat_to_dir smfs cd d fs) g =
    has_flags d g
    || (S_ISREG (st_mode fs) && negb (Z.land FF_FILE g =? 0))
    || (S_ISDIR (st_mode fs) && negb (Z.land FF_DIR g =? 0))
    || (negb (S_ISDIR (st_mode fs)) && (st_nlink fs >? 1) && negb (Z.land FF_HLNKC g =? 0))
    || (negb (smfs =? 0) && negb (cd =? st_dev fs) && negb (Z.land FF_OTHFS g =? 0)).
Proof.
  unfold stat_to_dir.
  set (d1 := mkdir _ _ _ _ _ (flags d)).
  assert (H1 : has_flags d1 g = has_flags d g) by reflexivity.
  clearbody d1.
  pose proof (S_ISREG_not_DIR (st_mode fs)) as Hrd.
  destruct (S_ISREG (st_mode fs)); [rewrite (Hrd eq_refl)|];
    destruct (S_ISDIR (st_mode fs)); cbv beta iota delta [negb andb];
    destruct (st_nlink fs >? 1); cbv beta iota;
    destruct (smfs =? 0); cbv beta iota;
    destruct (cd =? st_dev fs); cbv beta iota;
    match goal with |- context [if ?c then _ else _] => destruct c end;
    rewrite ?has_flags_mkdir;
    repeat match goal with
           | |- context [flags (or_flags ?x ?f)] =>
               change (flags (or_flags x f)) with (Z.lor (flags x) f)
           end;
    fold (has_flags d1 g);
    repeat match goal with
           | |- context [negb (Z.land (Z.lor ?x ?f) g =? 0)] =>
               change (negb (Z.land (Z.lor x f) g =? 0))
                 with (has_flags (or_flags (mkdir "" 0 0 0 0 x) f) g);
               rewrite has_flags_or_flags, has_flags_mkdir
           end;
    rewrite ?has_flags_or_flags, ?H1;
    fold (has_flags d1 g); rewrite ?H1;
    destruct (has_flags d g);
    repeat match goal with
           | |- context [Z.land ?a g =? 0] => destruct (Z.land a g =? 0)
           end; reflexivity.
Qed.

Lemma stat_to_dir_name smfs cd d fs : name (stat_to_dir smfs cd d fs) = name d.
Proof.
  unfold stat_to_dir.
  repeat match goal with |- context [if ?c then _ else _] => destruct c end;
    reflexivity.
Qed.

Lemma stat_to_dir_dev smfs cd d fs : dev (stat_to_dir smfs cd d fs) = st_dev fs.
Proof.
  unfold stat_to_dir.
  repeat match goal with |- context [if ?c then _ else _] => destruct c end;
    reflexivity.
Qed.

(** [stat_to_dir] writes the size fields only when neither [FF_OTHFS] nor
    [FF_EXL] is set once the flags are computed. *)
Lemma stat_to_dir_sizes smfs cd d fs :
  let d' := stat_to_dir smfs cd d fs in
  if has_flags d' (Z.lor FF_OTHFS FF_EXL)
  then size d' = size d /\ asize d' = asize d
  else size d' = st_blocks fs * S_BLKSIZE /\ asize d' = st_size fs.
Proof.
  unfold stat_to_dir.
  set (d1 := mkdir _ _ _ _ _ _).
  set (d2 := if S_ISREG _ then _ else _).
  set (d3 := if negb (S_ISDIR _) && _ then _ else _).
  set (d4 := if negb (smfs =? 0) && _ then _ else _).
  assert (Hs : size d4 = size d /\ asize d4 = asize d).
  { subst d4 d3 d2 d1.
    repeat match goal with |- context [if ?c then _ else _] => destruct c end;
      split; reflexivity. }
  cbv zeta. destruct (has_flags d4 (Z.lor FF_OTHFS FF_EXL)) eqn:H;
    cbv beta iota delta [negb].
  - rewrite H. exact Hs.
  - change (has_flags (mkdir (name d4) (ino d4) (dev d4) (st_blocks fs * S_BLKSIZE)
                             (st_size fs) (flags d4)) (Z.lor FF_OTHFS FF_EXL))
      with (has_flags d4 (Z.lor FF_OTHFS FF_EXL)).
    rewrite H. split; reflexivity.
Qed.

(** ** What a run does to the state *)

Lemma runs_ret {A} (a : A) s : runs (ret a) s a [].
Proof. unfold runs, ret. simpl. rewrite app_nil_r. auto. Qed.

Lemma runs_bind {A B} (m : M A) (f : A -> M B) s a evs1 b evs2 :
  runs m s a evs1 ->
  runs (f a) (snd (m s)) b evs2 ->
  runs (bind m f) s b (evs1 ++ evs2).
Proof.
  unfold runs, bind. intros (Ha & Hd & Hp & Ho) (Hb & Hd' & Hp' & Ho').
  destruct (m s) as [a' s']. simpl in *. subst a'.
  rewrite Hb, Hd', Hp', Ho', Hd, Hp, Ho, app_assoc. auto.
Qed.

Lemma runs_item d s : runs (dir_output_item d) s tt [item d].
Proof. unfold runs, dir_output_item. simpl. auto. Qed.

Lemma runs_emitted {A} (m : M A) s a evs :
  runs m s a evs -> emitted s (snd (m s)) = evs.
Proof.
  intros (_ & _ & _ & Ho). unfold emitted. rewrite Ho.
  rewrite skipn_app, skipn_all, Nat.sub_diag. reflexivity.
Qed.

(** ** The entry [dir_scan_item] dispatches on *)

Lemma prepare_runs cfg lstat_res d s :
  runs (dir_scan_item_prepare cfg lstat_res d) s
       (prepared_entry cfg (curdev s) (dir_curpath s) lstat_res d) [].
Proof.
  unfold runs, dir_scan_item_prepare, prepared_entry, illegal_name, bind, ret,
    get_curpath, get_curdev, dir_setlasterr.
  rewrite app_nil_r.
  destruct (CYGWIN cfg && (strchr (name d) "/" || strchr (name d) "\"));
    cbv beta iota zeta; cbn [fst snd dir_curpath curdev output];
    destruct (exclude_match cfg (dir_curpath s));
    match goal with
    | |- context [has_flags ?x (Z.lor FF_ERR FF_EXL)] =>
        destruct (has_flags x (Z.lor FF_ERR FF_EXL)) eqn:?
    end;
    cbv beta iota zeta delta [negb]; cbn [fst snd dir_curpath curdev output];
    destruct lstat_res;
    cbv beta iota zeta; cbn [fst snd dir_curpath curdev output];
    repeat match goal with
    | |- context [has_flags ?x (Z.lor FF_ERR FF_EXL)] =>
        destruct (has_flags x (Z.lor FF_ERR FF_EXL)) eqn:?
    end;
    cbv beta iota zeta; cbn [fst snd dir_curpath curdev output]; auto.
Qed.

(** On a fresh structure the result depends on the name check, the exclusion
    test and lstat() only. *)
Lemma prepared_entry_fresh cfg cd p lstat_res nm :
  prepared_entry cfg cd p lstat_res (dir_createstruct nm) =
    if illegal_name cfg nm then
      if exclude_match cfg p then mkdir nm 0 0 0 0 (Z.lor FF_ERR FF_EXL)
      else mkdir nm 0 0 0 0 FF_ERR
    else if exclude_match cfg p then mkdir nm 0 0 0 0 FF_EXL
    else match lstat_res with
         | None => mkdir nm 0 0 0 0 FF_ERR
         | Some st => stat_to_dir (dir_scan_smfs cfg) cd (dir_createstruct nm) st
         end.
Proof.
  unfold prepared_entry. cbn [name dir_createstruct].
  destruct (illegal_name cfg nm), (exclude_match cfg p), lstat_res; reflexivity.
Qed.

Lemma prepared_entry_name cfg cd p lstat_res d :
  name (prepared_entry cfg cd p lstat_res d) = name d.
Proof.
  unfold prepared_entry.
  repeat match goal with |- context [if ?c then _ else _] => destruct c end;
    try destruct lstat_res; rewrite ?stat_to_dir_name; reflexivity.
Qed.

(** ** Well-nested event streams *)

Lemma walked_nonempty (buf : list string) :
  Forall (fun nm => nm <> EmptyString) buf -> walked buf = buf.
Proof.
  induction 1 as [|nm buf Hnm _ IH]; [reflexivity|].
  destruct nm; [congruence|]. simpl. now rewrite IH.
Qed.

Section Forest.

Variable Q : dir -> Prop.

Lemma trees_app n1 e1 n2 e2 :
  trees Q n1 e1 -> trees Q n2 e2 -> trees Q (n1 ++ n2) (e1 ++ e2).
Proof.
  induction 1 as [|d names rest Hq Hd _ IH|d kn kids names rest Hq Hd Hk _ _ IH];
    intros H2; simpl.
  - exact H2.
  - apply trees_leaf; auto.
  - rewrite <- app_assoc. simpl. apply trees_node with (kidnames := kn); auto.
Qed.

Lemma trees_replay names evs :
  trees Q names evs -> forall rest depth, replay (evs ++ rest) depth = replay rest depth.
Proof.
  induction 1 as [|d names evs Hq Hd _ IH|d kn kids names evs Hq Hd _ IHk _ IH];
    intros rest depth; simpl.
  - reflexivity.
  - rewrite Hd. apply IH.
  - rewrite Hd, <- app_assoc, IHk. simpl. apply IH.
Qed.

Lemma trees_count names evs :
  trees Q names evs -> count_open evs = count_close evs.
Proof.
  unfold count_open, count_close.
  induction 1 as [|d names evs Hq Hd _ IH|d kn kids names evs Hq Hd _ IHk _ IH];
    simpl.
  - reflexivity.
  - rewrite Hd. exact IH.
  - rewrite Hd. simpl. rewrite !filter_app, !length_app. simpl. lia.
Qed.

Lemma entries_app e1 e2 : entries (e1 ++ e2) = entries e1 ++ entries e2.
Proof.
  induction e1 as [|[[d|]|f] e1 IH]; simpl; rewrite ?IH; reflexivity.
Qed.

Lemma finals_app e1 e2 : finals (e1 ++ e2) = finals e1 ++ finals e2.
Proof.
  induction e1 as [|[[d|]|f] e1 IH]; simpl; rewrite ?IH; reflexivity.
Qed.

Lemma trees_entries names evs : trees Q names evs -> Forall Q (entries evs).
Proof.
  induction 1 as [|d names evs Hq Hd _ IH|d kn kids names evs Hq Hd _ IHk _ IH];
    simpl.
  - constructor.
  - constructor; assumption.
  - constructor; [assumption|]. rewrite entries_app. simpl.
    apply Forall_app. split; assumption.
Qed.

Lemma trees_finals names evs : trees Q names evs -> finals evs = [].
Proof.
  induction 1 as [|d names evs Hq Hd _ IH|d kn kids names evs Hq Hd _ IHk _ IH];
    simpl; auto.
  rewrite finals_app, IHk. simpl. exact IH.
Qed.

(** Every name of [names] heads a subtree of the stream. *)
Lemma trees_roots names evs :
  trees Q names evs ->
  forall nm, In nm names -> exists d, In (item (Some d)) evs /\ name d = nm.
Proof.
  induction 1 as [|d names evs Hq Hd _ IH|d kn kids names evs Hq Hd _ IHk _ IH];
    intros nm Hin; simpl in Hin.
  - contradiction.
  - destruct Hin as [<-|Hin].
    + exists d. split; [now left|reflexivity].
    + destruct (IH _ Hin) as (d' & Hd' & Hn). exists d'. split; [now right|exact Hn].
  - destruct Hin as [<-|Hin].
    + exists d. split; [now left|reflexivity].
    + destruct (IH _ Hin) as (d' & Hd' & Hn). exists d'. split; [|exact Hn].
      right. apply in_or_app. right. now right.
Qed.

End Forest.

(** ** The walker's event stream *)

Lemma dir_read_opened (ds : dirstream) :
  dir_read (Some ds) 0 =
    (Some (dir_read_loop (rd_names ds) []), if listing_failed ds then 1 else 0).
Proof.
  unfold dir_read, listing_failed.
  destruct (rd_errno ds =? 0), (closedir_rc ds <? 0); reflexivity.
Qed.

Lemma dir_read_loop_spec (items buf : list string) :
  dir_read_loop items buf = buf ++ filter (fun nm => negb (is_dot_or_dotdot nm)) items.
Proof.
  revert buf. induction items as [|nm items IH]; intros buf; simpl.
  - now rewrite app_nil_r.
  - destruct (is_dot_or_dotdot nm); simpl; rewrite IH; [reflexivity|].
    now rewrite <- app_assoc.
Qed.

Section WalkerTrees.

Variable cfg : config.
Variable cd0 : Z.
Variable Q : dir -> Prop.

Hypothesis Q_prepared :
  forall p lstat_res nm, Q (prepared_entry cfg cd0 p lstat_res (dir_createstruct nm)).
Hypothesis Q_error : forall d, Q d -> Q (or_flags d FF_ERR).

Lemma dir_walk_loop_cons (scan_item : string -> dir -> M Z) c nm' buf s :
  let nm := String c nm' in
  let r := scan_item nm (dir_createstruct nm) (snd (dir_curpath_enter nm s)) in
  dir_walk_loop scan_item 0 (nm :: buf) s =
    dir_walk_loop scan_item (fst r) buf (snd (dir_curpath_leave (snd r))).
Proof.
  cbv zeta. cbn [dir_walk_loop Z.eqb negb]. unfold bind at 1 2 3.
  cbn [dir_curpath_enter snd].
  destruct (scan_item _ _ _) as [r s2]. reflexivity.
Qed.

Lemma dir_walk_loop_trees (scan_item : string -> dir -> M Z) :
  item_ok cd0 Q scan_item ->
  forall buf s, curdev s = cd0 ->
    exists evs, runs (dir_walk_loop scan_item 0 buf) s 0 evs /\
                trees Q (walked buf) evs.
Proof.
  intros Hitem. induction buf as [|nm buf IH]; intros s Hs.
  - exists []. split; [apply runs_ret|constructor].
  - destruct nm as [|c nm'].
    + exists []. split; [apply runs_ret|constructor].
    + set (nm := String c nm') in *.
      set (s1 := snd (dir_curpath_enter nm s)).
      destruct (Hitem nm s1 Hs) as (e1 & (Hr1 & Hd1 & Hp1 & Ho1) & Ht1).
      set (s2 := snd (scan_item nm (dir_createstruct nm) s1)) in *.
      set (s3 := snd (dir_curpath_leave s2)).
      assert (Hs3 : curdev s3 = cd0) by (subst s3; simpl; now rewrite Hd1).
      destruct (IH s3 Hs3) as (e2 & (Hr2 & Hd2 & Hp2 & Ho2) & Ht2).
      exists (e1 ++ e2). split.
      * assert (Heq : dir_walk_loop scan_item 0 (nm :: buf) s =
                      dir_walk_loop scan_item 0 buf s3).
        { subst nm. rewrite dir_walk_loop_cons. cbv zeta. fold s1.
          rewrite Hr1. reflexivity. }
        unfold runs. rewrite Heq, Hr2, Hd2, Hp2, Ho2.
        subst s3. cbn [dir_curpath_leave snd curdev dir_curpath output].
        rewrite Hd1, Hp1, Ho1. subst s1.
        cbn [dir_curpath_enter snd curdev dir_curpath output].
        rewrite removelast_last, app_assoc. auto.
      * change (walked (nm :: buf)) with ([nm] ++ walked buf).
        apply trees_app; assumption.
Qed.

Lemma dir_walk_trees (scan_item : string -> dir -> M Z) :
  item_ok cd0 Q scan_item ->
  forall dir s, curdev s = cd0 ->
    exists evs, runs (dir_walk scan_item dir) s 0 evs /\
                trees Q (match dir with Some buf => walked buf | None => [] end) evs.
Proof.
  intros Hitem [buf|] s Hs; simpl.
  - now apply dir_walk_loop_trees.
  - exists []. split; [apply runs_ret|constructor].
Qed.

Lemma recurse_fail_runs d s (up : Z) :
  runs (p <- get_curpath ;; dir_setlasterr (Some p) ;;
        dir_output_item (Some (or_flags d FF_ERR)) ;;
        dir_output_item None ;; ret up) s up
       [item (Some (or_flags d FF_ERR)); item None].
Proof.
  unfold runs, bind, ret, get_curpath, dir_setlasterr, dir_output_item. simpl.
  rewrite <- app_assoc. auto.
Qed.

Lemma walker_ok :
  (forall o, item_ok cd0 Q (fun _ => dir_scan_item cfg o)) /\
  (forall cd, recurse_ok cfg cd0 Q cd).
Proof.
  assert (Hmut : forall o, item_ok cd0 Q (fun _ => dir_scan_item cfg o)
         /\ match o with Obj _ cd => recurse_ok cfg cd0 Q cd end).
  2: { split; [intros o; apply Hmut|intros cd; apply (Hmut (Obj None cd))]. }
  apply (fsobj_mut
           (fun o => item_ok cd0 Q (fun _ => dir_scan_item cfg o)
                     /\ match o with Obj _ cd => recurse_ok cfg cd0 Q cd end)
           (recurse_ok cfg cd0 Q)).
  - (* Obj *)
    intros lst cd Hcd. split; [|exact Hcd].
    intros nm s Hs.
    pose proof (prepare_runs cfg lst (dir_createstruct nm) s) as Hprep.
    set (d := prepared_entry cfg (curdev s) (dir_curpath s) lst (dir_createstruct nm)) in *.
    assert (HQd : Q d) by (subst d; rewrite Hs; apply Q_prepared).
    assert (Hnm : name d = nm) by (subst d; apply prepared_entry_name).
    assert (Hs1 : curdev (snd (dir_scan_item_prepare cfg lst (dir_createstruct nm) s)) = cd0).
    { destruct Hprep as (_ & Hd & _). now rewrite Hd. }
    cbn [dir_scan_item].
    destruct (has_flags d FF_DIR) eqn:Hdir;
      [destruct (has_flags d (Z.lor (Z.lor FF_ERR FF_EXL) FF_OTHFS)) eqn:Hel|].
    + (* a directory that is not entered *)
      exists ([] ++ ([item (Some d)] ++ [item None]) ++ []). split.
      * eapply runs_bind; [exact Hprep|]. rewrite Hdir, Hel. cbn [andb negb].
        eapply runs_bind; [|apply runs_ret].
        eapply runs_bind; apply runs_item.
      * rewrite <- Hnm.
        apply (trees_node Q d [] [] [] []); auto; constructor.
    + (* recursion *)
      specialize (Hcd d _ Hs1).
      assert (Hrec : exists fail evs,
                 runs (dir_scan_recurse cfg cd d)
                      (snd (dir_scan_item_prepare cfg lst (dir_createstruct nm) s))
                      fail evs /\ trees Q [nm] evs).
      { destruct cd as [|[ds|] sub up].
        - eexists _, _. split; [exact Hcd|]. rewrite <- Hnm.
          apply (trees_node Q (or_flags d FF_ERR) [] [] [] []); auto;
            try constructor.
          rewrite has_flags_or_flags, Hdir. reflexivity.
        - destruct Hcd as (kids & Hr & Ht). eexists _, _. split; [exact Hr|].
          rewrite <- Hnm.
          replace (name d)
            with (name (if listing_failed ds then or_flags d FF_ERR else d))
            by (destruct (listing_failed ds); reflexivity).
          apply (trees_node Q _ (walked (dir_read_loop (rd_names ds) [])) kids [] []);
            auto; try constructor.
          + destruct (listing_failed ds); auto.
          + destruct (listing_failed ds); auto.
            rewrite has_flags_or_flags, Hdir. reflexivity.
        - eexists _, _. split; [exact Hcd|]. rewrite <- Hnm.
          apply (trees_node Q (or_flags d FF_ERR) [] [] [] []); auto;
            try constructor.
          rewrite has_flags_or_flags, Hdir. reflexivity. }
      destruct Hrec as (fail & evs & Hr & Ht).
      exists ([] ++ (evs ++ []) ++ []). split.
      * eapply runs_bind; [exact Hprep|]. rewrite Hdir, Hel. cbn [andb negb].
        eapply runs_bind; [|apply runs_ret].
        eapply runs_bind; [exact Hr|apply runs_ret].
      * simpl. rewrite !app_nil_r. exact Ht.
    + (* not a directory *)
      exists ([] ++ [item (Some d)] ++ []). split.
      * eapply runs_bind; [exact Hprep|]. rewrite Hdir. cbn [andb].
        eapply runs_bind; [apply runs_item|apply runs_ret].
      * rewrite <- Hnm. apply trees_leaf; auto. constructor.
  - (* ChdirFail *)
    intros d s Hs. apply recurse_fail_runs.
  - (* ChdirOk *)
    intros od sub IH up d s Hs.
    destruct od as [ds|].
    + cbn [dir_scan_recurse]. rewrite dir_read_opened.
      set (d' := if listing_failed ds then or_flags d FF_ERR else d).
      assert (Hd' : (if negb ((if listing_failed ds then 1 else 0) =? 0)
                     then or_flags d FF_ERR else d) = d')
        by (subst d'; destruct (listing_failed ds); reflexivity).
      rewrite Hd'.
      pose proof (runs_item (Some d') s) as H1.
      set (s1 := snd (dir_output_item (Some d') s)) in *.
      assert (Hs1 : curdev s1 = cd0) by (subst s1; exact Hs).
      destruct (dir_walk_trees (fun cur => dir_scan_item cfg (sub cur))
                  (fun nm => proj1 (IH nm) nm)
                  (Some (dir_read_loop (rd_names ds) [])) s1 Hs1)
        as (kids & Hw & Ht).
      exists kids. split; [|exact Ht].
      change (item (Some d') :: kids ++ [item None])
        with ([item (Some d')] ++ kids ++ [item None] ++ []).
      eapply runs_bind; [exact H1|].
      eapply runs_bind; [exact Hw|].
      eapply runs_bind; [apply runs_item|].
      cbn [Z.eqb andb]. destruct (negb (up =? 0)); apply runs_ret.
    + cbn [dir_scan_recurse dir_read]. apply recurse_fail_runs.
Qed.

End WalkerTrees.

(** ** The driver's event stream *)

Lemma noop_if (b : bool) : (if b then skip else ret tt) = ret tt.
Proof. destruct b; reflexivity. Qed.

Lemma dir_scan_process_runs (cfg : config) (Q : dir -> Prop) (w : world) :
  (forall p lstat_res nm,
      Q (prepared_entry cfg (st_dev (root_fs w)) p lstat_res (dir_createstruct nm))) ->
  (forall d, Q d -> Q (or_flags d FF_ERR)) ->
  forall s, exists kids,
    fst (dir_scan_process cfg w s) = output_final cfg 0 /\
    curdev (snd (dir_scan_process cfg w s)) = st_dev (root_fs w) /\
    output (snd (dir_scan_process cfg w s)) =
      output s ++ item (Some (root_entry cfg w)) :: kids ++ [item None; final 0] /\
    trees Q (root_walked w) kids.
Proof.
  intros HQ1 HQ2 s.
  unfold dir_scan_process, root_entry, root_walked, root_name.
  fold (root_fs w).
  destruct (dir_read (w_opendir w) 0) as [dir fail] eqn:Hread.
  rewrite !noop_if. cbn [fst snd].
  set (d := stat_to_dir _ _ _ _).
  set (s1 := mkstate (st_dev (root_fs w))
                     (match w_path_real w with Some r => [r] | None => [] end)
                     (lasterr s) (output s ++ [item (Some d)])).
  assert (Hs1 : curdev s1 = st_dev (root_fs w)) by reflexivity.
  destruct (dir_walk_trees _ Q (fun cur => dir_scan_item cfg (w_sub w cur))
              (fun nm => proj1 (walker_ok cfg _ Q HQ1 HQ2) (w_sub w nm) nm)
              dir s1 Hs1) as (kids & (Hr & Hd & Hp & Ho) & Ht).
  exists kids.
  unfold bind, ret, dir_curpath_set, set_curdev, get_curpath, get_curdev,
    dir_output_item, dir_output_final.
  cbn [fst snd curdev dir_curpath lasterr output].
  fold d. fold s1.
  destruct (dir_walk _ dir s1) as [r s2]. cbn [fst snd] in *. subst r.
  cbn [fst snd curdev dir_curpath lasterr output].
  rewrite Ho, Hd. subst s1. cbn [output curdev].
  rewrite <- !app_assoc. simpl. auto.
Qed.

(** ** One item *)

Lemma walker_any (cfg : config) (cd0 : Z) :
  (forall o, item_ok cd0 any_entry (fun _ => dir_scan_item cfg o)) /\
  (forall cd, recurse_ok cfg cd0 any_entry cd).
Proof. apply walker_ok; intros; exact I. Qed.

(** The three ways [dir_scan_item] ends, by the flags of the entry it has
    prepared. *)
Lemma dir_scan_item_dispatch cfg lstat_res cd d0 s :
  let d := prepared_entry cfg (curdev s) (dir_curpath s) lstat_res d0 in
  let s1 := snd (dir_scan_item_prepare cfg lstat_res d0 s) in
  if has_flags d FF_DIR && negb (has_flags d (Z.lor (Z.lor FF_ERR FF_EXL) FF_OTHFS))
  then forall fail evs,
         runs (dir_scan_recurse cfg cd d) s1 fail evs ->
         runs (dir_scan_item cfg (Obj lstat_res cd) d0) s 0 evs
  else if has_flags d FF_DIR
  then runs (dir_scan_item cfg (Obj lstat_res cd) d0) s 0 [item (Some d); item None]
  else runs (dir_scan_item cfg (Obj lstat_res cd) d0) s 0 [item (Some d)].
Proof.
  intros d s1. pose proof (prepare_runs cfg lstat_res d0 s) as Hprep. fold d in Hprep.
  cbn [dir_scan_item].
  destruct (has_flags d FF_DIR) eqn:Hdir;
    [destruct (has_flags d (Z.lor (Z.lor FF_ERR FF_EXL) FF_OTHFS)) eqn:Hm|];
    cbn [andb negb].
  - change [item (Some d); item None] with ([] ++ ([item (Some d)] ++ [item None]) ++ []).
    eapply runs_bind; [exact Hprep|]. rewrite Hdir, Hm. cbn [andb negb].
    eapply runs_bind; [|apply runs_ret]. eapply runs_bind; apply runs_item.
  - intros fail evs Hr.
    change evs with ([] ++ evs). eapply runs_bind; [exact Hprep|].
    rewrite Hdir, Hm. cbn [andb negb].
    rewrite <- (app_nil_r evs). eapply runs_bind; [|apply runs_ret].
    rewrite <- (app_nil_r evs). eapply runs_bind; [exact Hr|apply runs_ret].
  - change [item (Some d)] with ([] ++ [item (Some d)] ++ []).
    eapply runs_bind; [exact Hprep|]. rewrite Hdir. cbn [andb].
    eapply runs_bind; [apply runs_item|apply runs_ret].
Qed.

Lemma prepare_state cfg lstat_res d0 s :
  let s1 := snd (dir_scan_item_prepare cfg lstat_res d0 s) in
  curdev s1 = curdev s /\ dir_curpath s1 = dir_curpath s /\ output s1 = output s.
Proof.
  destruct (prepare_runs cfg lstat_res d0 s) as (_ & Hd & Hp & Ho).
  rewrite app_nil_r in Ho. auto.
Qed.

(** An entry that is not a directory, or not known to be one, is reported by
    a single [item] call, whatever lies below it. *)
Lemma dir_scan_item_leaf cfg lstat_res cd d0 s :
  let d := prepared_entry cfg (curdev s) (dir_curpath s) lstat_res d0 in
  has_flags d FF_DIR = false ->
  runs (dir_scan_item cfg (Obj lstat_res cd) d0) s 0 [item (Some d)].
Proof.
  intros d Hdir. pose proof (dir_scan_item_dispatch cfg lstat_res cd d0 s) as H.
  cbv zeta in H. fold d in H. rewrite Hdir in H. exact H.
Qed.

(** The first event of an item is its own entry, as prepared or, when the
    recursion into it failed, with [FF_ERR] added. *)
Lemma dir_scan_item_first cfg lstat_res cd d0 s :
  let d := prepared_entry cfg (curdev s) (dir_curpath s) lstat_res d0 in
  exists d' evs,
    runs (dir_scan_item cfg (Obj lstat_res cd) d0) s 0 (item (Some d') :: evs) /\
    (d' = d \/ d' = or_flags d FF_ERR /\ has_flags d FF_DIR = true).
Proof.
  intros d. pose proof (dir_scan_item_dispatch cfg lstat_res cd d0 s) as H.
  cbv zeta in H. fold d in H.
  destruct (has_flags d FF_DIR) eqn:Hdir;
    [destruct (has_flags d (Z.lor (Z.lor FF_ERR FF_EXL) FF_OTHFS)) eqn:Hm|];
    cbn [andb negb] in H.
  - exists d, [item None]. auto.
  - destruct (prepare_state cfg lstat_res d0 s) as (Hd & _).
    pose proof (proj2 (walker_any cfg (curdev s)) cd d _ Hd) as Hrec.
    destruct cd as [|[ds|] sub up].
    + exists (or_flags d FF_ERR), [item None]. split; [eapply H, Hrec|auto].
    + destruct Hrec as (kids & Hr & _).
      eexists _, _. split; [eapply H, Hr|].
      destruct (listing_failed ds); auto.
    + exists (or_flags d FF_ERR), [item None]. split; [eapply H, Hrec|auto].
  - exists d, []. auto.
Qed.

(** * The claims *)

(** ** Classification of one entry *)

(** C9: an entry whose lstat() fails is reported by exactly one [item] call
    and nothing else, whatever a chdir() into it would have done; the entry
    carries [FF_ERR], neither [FF_FILE] nor [FF_DIR], and zero sizes.  The
    lstat() call is made for the entries that the exclusion matcher lets
    through. *)
Theorem stat_failure_is_error_leaf (cfg : config) (cd : chdir_res) (nm : string) (s : state) :
  exclude_match cfg (dir_curpath s) = false ->
  exists d,
    emitted s (snd (dir_scan_item cfg (Obj None cd) (dir_createstruct nm) s))
      = [item (Some d)] /\
    fst (dir_scan_item cfg (Obj None cd) (dir_createstruct nm) s) = 0 /\
    name d = nm /\
    has_flags d FF_ERR = true /\
    has_flags d FF_FILE = false /\
    has_flags d FF_DIR = false /\
    size d = 0 /\ asize d = 0.
Proof.
  intros Hex.
  pose proof (dir_scan_item_leaf cfg None cd (dir_createstruct nm) s) as H.
  cbv zeta in H. rewrite prepared_entry_fresh, Hex in H.
  assert (Hd : (if illegal_name cfg nm then mkdir nm 0 0 0 0 FF_ERR
                else mkdir nm 0 0 0 0 FF_ERR) = mkdir nm 0 0 0 0 FF_ERR)
    by (destruct (illegal_name cfg nm); reflexivity).
  rewrite Hd in H. specialize (H eq_refl).
  exists (mkdir nm 0 0 0 0 FF_ERR).
  rewrite (runs_emitted _ _ _ _ H). destruct H as (Hr & _).
  repeat split; auto.
Qed.

(** C3, as the code has it: an entry whose current path matches an exclusion
    rule is not stat'ed and not entered.  Whatever the object is and whatever
    lies below it, it is reported by exactly one [item] call, carrying
    [FF_EXL], neither [FF_FILE] nor [FF_DIR] and zero sizes; no [item(NULL)]
    follows on its behalf and nothing is reported for its descendants. *)
Theorem excluded_entry_is_single_leaf (cfg : config) (o : fsobj) (nm : string) (s : state) :
  exclude_match cfg (dir_curpath s) = true ->
  exists d,
    emitted s (snd (dir_scan_item cfg o (dir_createstruct nm) s)) = [item (Some d)] /\
    fst (dir_scan_item cfg o (dir_createstruct nm) s) = 0 /\
    name d = nm /\
    has_flags d FF_EXL = true /\
    has_flags d FF_FILE = false /\
    has_flags d FF_DIR = false /\
    size d = 0 /\ asize d = 0.
Proof.
  intros Hex. destruct o as [lst cd].
  pose proof (dir_scan_item_leaf cfg lst cd (dir_createstruct nm) s) as H.
  cbv zeta in H. rewrite prepared_entry_fresh, Hex in H.
  destruct (illegal_name cfg nm); specialize (H eq_refl);
    eexists; rewrite (runs_emitted _ _ _ _ H); destruct H as (Hr & _);
    repeat split; auto.
Qed.

(** C7: for an entry whose lstat() succeeded, [FF_HLNKC] is set exactly when
    the object is not a directory and its link count exceeds one.  This holds
    for every entry the walker stats (those that pass the name check and the
    exclusion test) and for the root entry. *)
Theorem hard_link_candidate_flag (cfg : config) :
  (forall st cd nm s,
     exclude_match cfg (dir_curpath s) = false ->
     illegal_name cfg nm = false ->
     exists d evs,
       emitted s (snd (dir_scan_item cfg (Obj (Some st) cd) (dir_createstruct nm) s))
         = item (Some d) :: evs /\
       name d = nm /\
       has_flags d FF_HLNKC = negb (S_ISDIR (st_mode st)) && (st_nlink st >? 1)) /\
  (forall w,
     has_flags (root_entry cfg w) FF_HLNKC
       = negb (S_ISDIR (st_mode (root_fs w))) && (st_nlink (root_fs w) >? 1)).
Proof.
  assert (Hcls : forall smfs cd d0 st,
             has_flags d0 FF_HLNKC = false ->
             has_flags (stat_to_dir smfs cd d0 st) FF_HLNKC
               = negb (S_ISDIR (st_mode st)) && (st_nlink st >? 1)).
  { intros smfs cd d0 st H0. rewrite stat_to_dir_has, H0. mask_consts.
    cbn [negb orb]. rewrite !andb_false_r, !andb_true_r. cbn [orb].
    now rewrite orb_false_r. }
  split.
  - intros st cd nm s Hex Hill.
    destruct (dir_scan_item_first cfg (Some st) cd (dir_createstruct nm) s)
      as (d' & evs & Hr & Hd').
    rewrite prepared_entry_fresh, Hex, Hill in Hd'.
    exists d', evs. rewrite (runs_emitted _ _ _ _ Hr). split; [reflexivity|].
    set (d := stat_to_dir _ _ _ _) in *.
    assert (Hd : name d = nm /\
                 has_flags d FF_HLNKC = negb (S_ISDIR (st_mode st)) && (st_nlink st >? 1)).
    { subst d. rewrite stat_to_dir_name. split; [reflexivity|]. now apply Hcls. }
    destruct Hd' as [->|[-> _]]; [exact Hd|].
    rewrite has_flags_or_flags. mask_consts. cbn [negb]. rewrite orb_false_r. exact Hd.
  - intros w. unfold root_entry. apply Hcls.
    destruct (negb (snd (dir_read (w_opendir w) 0) =? 0)); reflexivity.
Qed.

(** ** Invariants of every reported entry *)

Lemma sizes_suppressed_stat_to_dir smfs cd d fs :
  size d = 0 -> asize d = 0 -> sizes_suppressed (stat_to_dir smfs cd d fs).
Proof.
  intros Hs Ha Hfl. pose proof (stat_to_dir_sizes smfs cd d fs) as H. cbv zeta in H.
  rewrite has_flags_mask_lor in H.
  destruct Hfl as [Hfl|Hfl]; rewrite Hfl, ?orb_true_r in H; cbn [orb] in H;
    destruct H as [H1 H2]; split; congruence.
Qed.

Lemma sizes_suppressed_prepared cfg cd p lstat_res nm :
  sizes_suppressed (prepared_entry cfg cd p lstat_res (dir_createstruct nm)).
Proof.
  rewrite prepared_entry_fresh.
  destruct (illegal_name cfg nm), (exclude_match cfg p), lstat_res;
    try (intros _; split; reflexivity).
  apply sizes_suppressed_stat_to_dir; reflexivity.
Qed.

Lemma sizes_suppressed_error d : sizes_suppressed d -> sizes_suppressed (or_flags d FF_ERR).
Proof.
  unfold sizes_suppressed. rewrite !has_flags_or_flags.
  mask_consts.
  cbn [negb]. rewrite !orb_false_r. auto.
Qed.

(** C5: every entry reported during a scan that carries [FF_EXL] or
    [FF_OTHFS] has both size fields zero, whatever lstat() said about the
    object. *)
Theorem excluded_or_otherfs_has_zero_size (cfg : config) (w : world) (s : state) (d : dir) :
  In d (entries (emitted s (snd (dir_scan_process cfg w s)))) ->
  has_flags d FF_EXL = true \/ has_flags d FF_OTHFS = true ->
  size d = 0 /\ asize d = 0.
Proof.
  intros Hin.
  destruct (dir_scan_process_runs cfg sizes_suppressed w
              (sizes_suppressed_prepared cfg _) sizes_suppressed_error s)
    as (kids & _ & _ & Ho & Ht).
  unfold emitted in Hin. rewrite Ho, skipn_app, skipn_all, Nat.sub_diag in Hin.
  cbn [app skipn entries] in Hin. rewrite entries_app in Hin.
  destruct Hin as [<-|Hin].
  - apply sizes_suppressed_stat_to_dir;
      destruct (negb (snd (dir_read (w_opendir w) 0) =? 0)); reflexivity.
  - apply in_app_or in Hin. destruct Hin as [Hin|Hin]; [|contradiction Hin].
    pose proof (trees_entries _ _ _ Ht) as Hall.
    rewrite Forall_forall in Hall. exact (Hall _ Hin).
Qed.

Lemma stat_to_dir_othfs smfs cd d fs :
  has_flags (stat_to_dir smfs cd d fs) FF_OTHFS =
    has_flags d FF_OTHFS || (negb (smfs =? 0) && negb (cd =? st_dev fs)).
Proof.
  rewrite stat_to_dir_has.
  mask_consts.
  cbn [negb]. rewrite !andb_false_r, !andb_true_r, !orb_false_r. reflexivity.
Qed.

Lemma othfs_by_device_stat_to_dir cfg cd0 d fs :
  has_flags d FF_OTHFS = false ->
  othfs_by_device cfg cd0 (stat_to_dir (dir_scan_smfs cfg) cd0 d fs).
Proof.
  intros Hd. unfold othfs_by_device.
  rewrite stat_to_dir_othfs, stat_to_dir_dev, Hd. cbn [orb].
  destruct (dir_scan_smfs cfg =? 0) eqn:Hs, (cd0 =? st_dev fs) eqn:Hc; cbn [negb andb];
    rewrite ?Z.eqb_eq, ?Z.eqb_neq in *; split; intros; try discriminate;
    try congruence; auto.
Qed.

Lemma othfs_by_device_prepared cfg cd0 p lstat_res nm :
  othfs_by_device cfg cd0 (prepared_entry cfg cd0 p lstat_res (dir_createstruct nm)).
Proof.
  rewrite prepared_entry_fresh.
  destruct (illegal_name cfg nm), (exclude_match cfg p), lstat_res;
    try (split; intros; discriminate).
  now apply othfs_by_device_stat_to_dir.
Qed.

Lemma othfs_by_device_error cfg cd0 d :
  othfs_by_device cfg cd0 d -> othfs_by_device cfg cd0 (or_flags d FF_ERR).
Proof.
  unfold othfs_by_device. rewrite !has_flags_or_flags.
  mask_consts.
  cbn [negb]. rewrite orb_false_r, orb_true_r.
  intros [H1 H2]. split; [exact H1|]. intros; discriminate.
Qed.

(** C8: the scan records the root's device in [curdev] before the root entry
    is classified, so the root entry (the first event) never carries
    [FF_OTHFS]; and a reported entry carries [FF_OTHFS] only under the
    same-filesystem policy with a device other than the root's, while under
    that policy every classified entry on another device carries it. *)
Theorem other_filesystem_flag (cfg : config) (w : world) (s : state) :
  let s' := snd (dir_scan_process cfg w s) in
  curdev s' = st_dev (root_fs w) /\
  hd_error (emitted s s') = Some (item (Some (root_entry cfg w))) /\
  dev (root_entry cfg w) = curdev s' /\
  has_flags (root_entry cfg w) FF_OTHFS = false /\
  forall d, In d (entries (emitted s s')) ->
    (has_flags d FF_OTHFS = true -> dir_scan_smfs cfg <> 0 /\ dev d <> curdev s') /\
    (dir_scan_smfs cfg <> 0 ->
     has_flags d FF_ERR = false -> has_flags d FF_EXL = false ->
     (has_flags d FF_OTHFS = true <-> dev d <> curdev s')).
Proof.
  cbv zeta.
  destruct (dir_scan_process_runs cfg (othfs_by_device cfg (st_dev (root_fs w))) w
              (othfs_by_device_prepared cfg _) (othfs_by_device_error cfg _) s)
    as (kids & _ & Hcd & Ho & Ht).
  unfold emitted. rewrite Ho, skipn_app, skipn_all, Nat.sub_diag, Hcd.
  cbn [app skipn entries hd_error]. rewrite entries_app.
  assert (Hroot : othfs_by_device cfg (st_dev (root_fs w)) (root_entry cfg w)).
  { apply othfs_by_device_stat_to_dir.
    destruct (negb (snd (dir_read (w_opendir w) 0) =? 0)); reflexivity. }
  assert (Hdev : dev (root_entry cfg w) = st_dev (root_fs w))
    by apply stat_to_dir_dev.
  split; [reflexivity|]. split; [reflexivity|]. split; [exact Hdev|]. split.
  - destruct (has_flags (root_entry cfg w) FF_OTHFS) eqn:E; [|reflexivity].
    destruct Hroot as [H1 _]. destruct (H1 E) as [_ H]. congruence.
  - intros d Hin.
    assert (Hd : othfs_by_device cfg (st_dev (root_fs w)) d).
    { destruct Hin as [<-|Hin]; [exact Hroot|].
      apply in_app_or in Hin. destruct Hin as [Hin|Hin]; [|contradiction Hin].
      pose proof (trees_entries _ _ _ Ht) as Hall.
      rewrite Forall_forall in Hall. exact (Hall _ Hin). }
    destruct Hd as [H1 H2]. split; [exact H1|].
    intros Hsm He Hx. split; [intros Hf; now apply H1|intros Hdv; now apply H2].
Qed.

(** ** Shape of the whole stream *)

Lemma replay_app pre post depth :
  replay (pre ++ post) depth =
    match replay pre depth with
    | Some depth' => replay post depth'
    | None => None
    end.
Proof.
  revert depth. induction pre as [|c pre IH]; intros depth; simpl; [reflexivity|].
  destruct (is_open c); [apply IH|].
  destruct (is_close c); [|apply IH].
  destruct depth; [reflexivity|apply IH].
Qed.

Lemma root_entry_is_dir cfg w :
  S_ISDIR (st_mode (root_fs w)) = true -> has_flags (root_entry cfg w) FF_DIR = true.
Proof.
  intros H. unfold root_entry. rewrite stat_to_dir_has, H.
  mask_consts. cbn [negb andb].
  rewrite !orb_true_r. reflexivity.
Qed.

Lemma root_entry_error cfg w :
  snd (dir_read (w_opendir w) 0) <> 0 -> has_flags (root_entry cfg w) FF_ERR = true.
Proof.
  intros H. unfold root_entry. apply Z.eqb_neq in H. rewrite H. cbn [negb].
  rewrite stat_to_dir_has, has_flags_or_flags.
  mask_consts. reflexivity.
Qed.

(** The events of a whole scan: the root entry, the subtrees of the names
    walked below it, the closing [item(NULL)] and [final(0)]. *)
Lemma dir_scan_process_emitted cfg w s :
  exists kids,
    emitted s (snd (dir_scan_process cfg w s))
      = item (Some (root_entry cfg w)) :: kids ++ [item None; final 0] /\
    fst (dir_scan_process cfg w s) = output_final cfg 0 /\
    trees any_entry (root_walked w) kids.
Proof.
  destruct (dir_scan_process_runs cfg any_entry w (fun _ _ _ => I) (fun _ _ => I) s)
    as (kids & Hr & _ & Ho & Ht).
  exists kids. unfold emitted. rewrite Ho, skipn_app, skipn_all, Nat.sub_diag.
  auto.
Qed.

(** C2: when the root is a directory, the events of a scan are balanced and
    properly nested: as many open events ([item] with an entry carrying
    [FF_DIR]) as close events ([item(NULL)]), and the stack-based replay of
    the stream, and of each of its prefixes, never pops an empty stack and
    ends with an empty stack; whatever errors the walk ran into. *)
Theorem event_stream_balanced (cfg : config) (w : world) (s : state) (st : stat) :
  w_lstat w = Some st ->
  S_ISDIR (st_mode st) = true ->
  let evs := emitted s (snd (dir_scan_process cfg w s)) in
  count_open evs = count_close evs /\
  replay evs 0 = Some 0%nat /\
  forall pre post, evs = pre ++ post -> exists depth, replay pre 0 = Some depth.
Proof.
  intros Hst Hdir evs.
  destruct (dir_scan_process_emitted cfg w s) as (kids & Ho & _ & Ht).
  fold evs in Ho.
  assert (Hroot : has_flags (root_entry cfg w) FF_DIR = true).
  { apply root_entry_is_dir. unfold root_fs. now rewrite Hst. }
  pose proof (trees_node any_entry (root_entry cfg w) _ kids [] [] I Hroot Ht
                (trees_nil _)) as Htree.
  assert (Hevs : evs = (item (Some (root_entry cfg w)) :: kids ++ [item None])
                         ++ [final 0]).
  { rewrite Ho. simpl. rewrite <- app_assoc. reflexivity. }
  assert (Hrep : replay evs 0 = Some 0%nat).
  { rewrite Hevs, (trees_replay _ _ _ Htree). reflexivity. }
  split; [|split].
  - rewrite Hevs. unfold count_open, count_close. rewrite !filter_app, !length_app.
    pose proof (trees_count _ _ _ Htree) as Hc. unfold count_open, count_close in Hc.
    rewrite Hc. reflexivity.
  - exact Hrep.
  - intros pre post Heq. rewrite Heq, replay_app in Hrep.
    destruct (replay pre 0) as [depth|]; [now exists depth|discriminate].
Qed.

(** ** Listing failures *)

Lemma dir_read_collected ds err :
  fst (dir_read (Some ds) err) = Some (collected ds).
Proof. unfold dir_read, collected. now rewrite dir_read_loop_spec. Qed.

Lemma dir_read_failed ds err :
  listing_failed ds = true -> snd (dir_read (Some ds) err) = 1.
Proof.
  unfold dir_read, listing_failed.
  destruct (rd_errno ds =? 0), (closedir_rc ds <? 0); simpl; congruence.
Qed.

(** C10: when the listing of the root itself fails, the scan still runs to
    its end.  If the root cannot be opened, the stream is the root entry
    with [FF_ERR], its close event and [final(0)].  If the listing fails
    partway, the root entry carries [FF_ERR], one subtree is reported for
    each collected name and the stream again ends with the root's close
    event and [final(0)].  The root entry is an open event when the root is
    a directory. *)
Theorem root_listing_failure_is_not_fatal (cfg : config) (w : world) (s : state) :
  let r := dir_scan_process cfg w s in
  let root := root_entry cfg w in
  (w_opendir w = None ->
     emitted s (snd r) = [item (Some root); item None; final 0] /\
     has_flags root FF_ERR = true /\
     fst r = output_final cfg 0) /\
  (forall ds,
     w_opendir w = Some ds -> listing_failed ds = true ->
     Forall nonempty (collected ds) ->
     exists kids,
       emitted s (snd r) = item (Some root) :: kids ++ [item None; final 0] /\
       has_flags root FF_ERR = true /\
       fst r = output_final cfg 0 /\
       trees any_entry (collected ds) kids /\
       forall nm, In nm (collected ds) ->
                  exists d, In (item (Some d)) kids /\ name d = nm) /\
  (S_ISDIR (st_mode (root_fs w)) = true -> is_open (item (Some root)) = true).
Proof.
  cbv zeta.
  destruct (dir_scan_process_emitted cfg w s) as (kids & Ho & Hr & Ht).
  split; [|split].
  - intros Hod. unfold root_walked in Ht. rewrite Hod in Ht. cbn in Ht.
    inversion Ht; subst. split; [exact Ho|]. split; [|exact Hr].
    apply root_entry_error. rewrite Hod. discriminate.
  - intros ds Hod Hfail Hne. exists kids.
    unfold root_walked in Ht. rewrite Hod, dir_read_collected in Ht.
    rewrite (walked_nonempty _ Hne) in Ht.
    split; [exact Ho|]. split; [|split; [exact Hr|split; [exact Ht|]]].
    + apply root_entry_error. rewrite Hod, (dir_read_failed _ _ Hfail). discriminate.
    + apply (trees_roots _ _ _ Ht).
  - apply root_entry_is_dir.
Qed.

Lemma dir_walk_loop_app (cd0 : Z) (Q : dir -> Prop) (scan_item : string -> dir -> M Z) :
  item_ok cd0 Q scan_item ->
  forall pre post s, curdev s = cd0 -> Forall nonempty pre ->
    exists e1 s1,
      trees Q pre e1 /\
      curdev s1 = curdev s /\ dir_curpath s1 = dir_curpath s /\
      output s1 = output s ++ e1 /\
      dir_walk_loop scan_item 0 (pre ++ post) s = dir_walk_loop scan_item 0 post s1.
Proof.
  intros Hitem. induction pre as [|nm pre IH]; intros post s Hs Hne.
  - exists [], s. rewrite app_nil_r. repeat split; auto. constructor.
  - apply Forall_cons_iff in Hne. destruct Hne as [Hnm Hne'].
    destruct nm as [|c nm']; [now elim Hnm|].
    set (nm := String c nm') in *.
    set (s1 := snd (dir_curpath_enter nm s)).
    destruct (Hitem nm s1 Hs) as (e1 & (Hr1 & Hd1 & Hp1 & Ho1) & Ht1).
    set (s3 := snd (dir_curpath_leave (snd (scan_item nm (dir_createstruct nm) s1)))).
    assert (Hs3 : curdev s3 = cd0) by (subst s3; simpl; now rewrite Hd1).
    destruct (IH post s3 Hs3 Hne') as (e2 & s4 & Ht2 & Hd2 & Hp2 & Ho2 & Heq).
    exists (e1 ++ e2), s4. split; [|split; [|split; [|split]]].
    + change (nm :: pre) with ([nm] ++ pre). now apply trees_app.
    + rewrite Hd2. subst s3. cbn [dir_curpath_leave snd curdev]. rewrite Hd1.
      reflexivity.
    + rewrite Hp2. subst s3. cbn [dir_curpath_leave snd dir_curpath]. rewrite Hp1.
      subst s1. cbn [dir_curpath_enter snd dir_curpath]. apply removelast_last.
    + rewrite Ho2. subst s3. cbn [dir_curpath_leave snd output]. rewrite Ho1.
      subst s1. cbn [dir_curpath_enter snd output]. now rewrite app_assoc.
    + rewrite <- Heq. subst nm. cbn [app]. rewrite dir_walk_loop_cons. cbv zeta.
      fold s1. rewrite Hr1. reflexivity.
Qed.

(** The call [final] receives, in every scan. *)
Lemma dir_scan_process_finals cfg w s :
  finals (emitted s (snd (dir_scan_process cfg w s))) = [0].
Proof.
  destruct (dir_scan_process_emitted cfg w s) as (kids & Ho & _ & Ht).
  rewrite Ho. cbn [finals]. rewrite finals_app, (trees_finals _ _ _ Ht). reflexivity.
Qed.

Lemma runs_shift {A} (m m' : M A) s s1 e1 a e2 :
  curdev s1 = curdev s -> dir_curpath s1 = dir_curpath s ->
  output s1 = output s ++ e1 ->
  m s = m' s1 ->
  runs m' s1 a e2 -> runs m s a (e1 ++ e2).
Proof.
  intros Hd Hp Ho Heq (Ha & Hd' & Hp' & Ho'). unfold runs.
  rewrite Heq, Ha, Hd', Hp', Ho', Hd, Hp, Ho, app_assoc. auto.
Qed.

Lemma dir_walk_loop_step (scan_item : string -> dir -> M Z) c nm' post s e1 e2 :
  let nm := String c nm' in
  let s1 := snd (dir_curpath_enter nm s) in
  let s3 := snd (dir_curpath_leave (snd (scan_item nm (dir_createstruct nm) s1))) in
  runs (scan_item nm (dir_createstruct nm)) s1 0 e1 ->
  runs (dir_walk_loop scan_item 0 post) s3 0 e2 ->
  runs (dir_walk_loop scan_item 0 (nm :: post)) s 0 (e1 ++ e2).
Proof.
  intros nm s1 s3 (Hr1 & Hd1 & Hp1 & Ho1) H2.
  apply (runs_shift _ (dir_walk_loop scan_item 0 post) s s3); [| | | |exact H2].
  - subst s3. cbn [dir_curpath_leave snd curdev]. rewrite Hd1. reflexivity.
  - subst s3. cbn [dir_curpath_leave snd dir_curpath]. rewrite Hp1.
    subst s1. cbn [dir_curpath_enter snd dir_curpath]. apply removelast_last.
  - subst s3. cbn [dir_curpath_leave snd output]. rewrite Ho1. reflexivity.
  - subst nm. rewrite dir_walk_loop_cons. cbv zeta. fold s1. rewrite Hr1. reflexivity.
Qed.

(** A directory that the scanner may enter: classified from a successful
    lstat() as a directory on the scanned filesystem. *)
Lemma entered_directory_flags cfg cd st nm :
  S_ISDIR (st_mode st) = true ->
  dir_scan_smfs cfg = 0 \/ st_dev st = cd ->
  let d := stat_to_dir (dir_scan_smfs cfg) cd (dir_createstruct nm) st in
  has_flags d FF_DIR = true /\
  has_flags d (Z.lor (Z.lor FF_ERR FF_EXL) FF_OTHFS) = false.
Proof.
  intros Hdir Hdev d. subst d. split.
  - rewrite stat_to_dir_has, Hdir. mask_consts.
    cbn [negb andb]. rewrite !orb_true_r. reflexivity.
  - rewrite !has_flags_mask_lor, stat_to_dir_othfs, !stat_to_dir_has,
      has_flags_createstruct.
    mask_consts.
    cbn [negb]. rewrite !andb_false_r. cbn [orb].
    destruct Hdev as [-> | ->]; [reflexivity|].
    rewrite Z.eqb_refl. cbn [negb]. now rewrite andb_false_r.
Qed.

(** C6: a listing that was opened but failed while being read or closed is a
    partial, non-fatal failure.  [dir_read] still returns every collected
    name and raises the error flag; it returns NULL only when the directory
    cannot be opened.  In a walk that comes across a directory [nm] with
    such a listing, after the subtrees of the names before it, [nm] is
    reported as an open event with [FF_ERR], followed by one subtree for each
    collected name and its close event, and the walk goes on with one
    subtree for each of the names after it.  A directory that cannot be
    opened is reported as an open event with [FF_ERR] directly followed by
    its close event.  [final] is called once, with 0. *)
Theorem partial_listing_is_not_fatal (cfg : config) :
  (forall ds err, listing_failed ds = true ->
     dir_read (Some ds) err = (Some (collected ds), 1)) /\
  (forall err, dir_read None err = (None, 1)) /\
  (forall parent pre nm post st ds sub s,
     parent nm = Obj (Some st) (ChdirOk (Some ds) sub 0) ->
     listing_failed ds = true ->
     Forall nonempty (pre ++ nm :: post) ->
     Forall nonempty (collected ds) ->
     exclude_match cfg (dir_curpath s ++ [nm]) = false ->
     illegal_name cfg nm = false ->
     S_ISDIR (st_mode st) = true ->
     dir_scan_smfs cfg = 0 \/ st_dev st = curdev s ->
     exists d e_pre kids e_post,
       runs (dir_walk (fun cur => dir_scan_item cfg (parent cur))
                      (Some (pre ++ nm :: post))) s 0
            (e_pre ++ item (Some d) :: kids ++ item None :: e_post) /\
       name d = nm /\
       has_flags d FF_ERR = true /\
       has_flags d FF_DIR = true /\
       trees any_entry pre e_pre /\
       trees any_entry (collected ds) kids /\
       trees any_entry post e_post) /\
  (forall d sub up s,
     emitted s (snd (dir_scan_recurse cfg (ChdirOk None sub up) d s))
       = [item (Some (or_flags d FF_ERR)); item None]) /\
  (forall w s, finals (emitted s (snd (dir_scan_process cfg w s))) = [0]).
Proof.
  split; [|split; [|split; [|split]]].
  - intros ds err Hf. rewrite (surjective_pairing (dir_read (Some ds) err)).
    now rewrite dir_read_collected, dir_read_failed.
  - reflexivity.
  - intros parent pre nm post st ds sub s Hobj Hfail Hne Hnec Hex Hill Hdir Hdev.
    apply Forall_app in Hne. destruct Hne as [Hpre Hne].
    apply Forall_cons_iff in Hne. destruct Hne as [Hnm Hpost].
    set (scan := fun cur => dir_scan_item cfg (parent cur)).
    assert (Hitem : item_ok (curdev s) any_entry scan).
    { intros n s0 Hs0. apply (proj1 (walker_any cfg (curdev s)) (parent n) n s0 Hs0). }
    destruct (dir_walk_loop_app _ _ scan Hitem pre (nm :: post) s eq_refl Hpre)
      as (e_pre & s1 & Htpre & Hd1 & Hp1 & Ho1 & Heq).
    destruct nm as [|c nm']; [now elim Hnm|].
    set (nm := String c nm') in *.
    set (s2 := snd (dir_curpath_enter nm s1)).
    assert (Hd2 : curdev s2 = curdev s) by (subst s2; exact Hd1).
    assert (Hp2 : dir_curpath s2 = dir_curpath s ++ [nm])
      by (subst s2; cbn [dir_curpath_enter snd dir_curpath]; now rewrite Hp1).
    (* the directory itself *)
    pose proof (dir_scan_item_dispatch cfg (Some st) (ChdirOk (Some ds) sub 0)
                  (dir_createstruct nm) s2) as Hdisp.
    cbv zeta in Hdisp.
    rewrite prepared_entry_fresh, Hp2, Hex, Hill, Hd2 in Hdisp.
    destruct (entered_directory_flags cfg (curdev s) st nm Hdir Hdev) as [Hfd Hfm].
    set (d := stat_to_dir (dir_scan_smfs cfg) (curdev s) (dir_createstruct nm) st) in *.
    rewrite Hfd, Hfm in Hdisp. cbn [andb negb] in Hdisp.
    destruct (prepare_state cfg (Some st) (dir_createstruct nm) s2) as (Hd3 & _).
    rewrite Hd2 in Hd3.
    destruct (proj2 (walker_any cfg (curdev s)) (ChdirOk (Some ds) sub 0) d _ Hd3)
      as (kids & Hrec & Htk).
    rewrite Hfail in Hrec. cbn [Z.eqb negb] in Hrec.
    rewrite dir_read_loop_spec in Htk. cbn [app] in Htk. fold (collected ds) in Htk.
    rewrite (walked_nonempty _ Hnec) in Htk.
    pose proof (Hdisp _ _ Hrec) as Hit.
    assert (Hit' : runs (scan nm (dir_createstruct nm)) s2 0
                        (item (Some (or_flags d FF_ERR)) :: kids ++ [item None]))
      by (unfold scan; rewrite Hobj; exact Hit).
    (* the names after it *)
    set (s3 := snd (dir_curpath_leave
                      (snd (scan nm (dir_createstruct nm) s2)))).
    assert (Hd4 : curdev s3 = curdev s).
    { subst s3 scan. cbn [dir_curpath_leave snd curdev]. rewrite Hobj.
      destruct Hit as (_ & H & _). now rewrite H. }
    destruct (dir_walk_loop_trees _ _ scan Hitem post s3 Hd4) as (e_post & Hrp & Htp).
    rewrite (walked_nonempty _ Hpost) in Htp.
    exists (or_flags d FF_ERR), e_pre, kids, e_post.
    split; [|split; [|split; [|split; [|split; [|split]]]]]; auto.
    + cbn [dir_walk].
      apply (runs_shift _ (dir_walk_loop scan 0 (nm :: post)) s s1); auto.
      replace (item (Some (or_flags d FF_ERR)) :: kids ++ item None :: e_post)
        with ((item (Some (or_flags d FF_ERR)) :: kids ++ [item None]) ++ e_post)
        by (simpl; now rewrite <- app_assoc).
      apply dir_walk_loop_step; [exact Hit'|exact Hrp].
    + subst d. apply stat_to_dir_name.
    + rewrite has_flags_or_flags. mask_consts.
      now rewrite orb_true_r.
    + rewrite has_flags_or_flags, Hfd. reflexivity.
  - intros d sub up s.
    pose proof (proj2 (walker_any cfg (curdev s)) (ChdirOk None sub up) d s eq_refl) as H.
    apply (runs_emitted _ _ _ _ H).
  - intros w s. apply dir_scan_process_finals.
Qed.

(** ** The claims on sample filesystems *)

Module SampleRuns.
Import Samples.

Lemma w_sample_stream :
  emitted s0 (snd (dir_scan_process cfg_sample w_sample s0)) =
    [item (Some (mkdir "/r" 1 1 4096 4096 FF_DIR));
     item (Some (mkdir "a" 2 1 4096 4096 (Z.lor FF_FILE FF_HLNKC)));
     item (Some (mkdir "b" 3 1 4096 4096 FF_DIR));
     item None;
     item (Some (mkdir "x" 0 0 0 0 FF_EXL));
     item (Some (mkdir "m" 5 2 0 0 (Z.lor FF_DIR FF_OTHFS)));
     item None;
     item (Some (mkdir "gone" 0 0 0 0 FF_ERR));
     item None;
     final 0].
Proof. vm_compute. reflexivity. Qed.

Lemma event_stream_balanced_witness :
  w_lstat w_sample = Some (st_dir 1 1) /\
  S_ISDIR (st_mode (st_dir 1 1)) = true /\
  let evs := emitted s0 (snd (dir_scan_process cfg_sample w_sample s0)) in
  count_open evs = count_close evs /\
  replay evs 0 = Some 0%nat /\
  forall pre post, evs = pre ++ post -> exists depth, replay pre 0 = Some depth.
Proof.
  split; [reflexivity|]. split; [reflexivity|].
  apply (event_stream_balanced cfg_sample w_sample s0 (st_dir 1 1));
    reflexivity.
Defined.

Lemma excluded_or_otherfs_has_zero_size_witness :
  let d := mkdir "m" 5 2 0 0 (Z.lor FF_DIR FF_OTHFS) in
  In d (entries (emitted s0 (snd (dir_scan_process cfg_sample w_sample s0)))) /\
  has_flags d FF_OTHFS = true /\
  size d = 0 /\ asize d = 0.
Proof.
  cbv zeta.
  assert (Hin : In (mkdir "m" 5 2 0 0 (Z.lor FF_DIR FF_OTHFS))
                   (entries (emitted s0 (snd (dir_scan_process cfg_sample w_sample s0))))).
  { rewrite w_sample_stream. cbn [entries In]. auto 10. }
  split; [exact Hin|]. split; [reflexivity|].
  apply (excluded_or_otherfs_has_zero_size cfg_sample w_sample s0 _ Hin).
  right. reflexivity.
Defined.

Lemma hard_link_candidate_flag_witness :
  exclude_match cfg_sample (dir_curpath (at_name "a")) = false /\
  illegal_name cfg_sample "a" = false /\
  exists d evs,
    emitted (at_name "a")
            (snd (dir_scan_item cfg_sample (Obj (Some (st_reg 1 2 2 4096 8)) ChdirFail)
                                (dir_createstruct "a") (at_name "a")))
      = item (Some d) :: evs /\
    name d = "a" /\
    has_flags d FF_HLNKC
      = negb (S_ISDIR (st_mode (st_reg 1 2 2 4096 8))) && (st_nlink (st_reg 1 2 2 4096 8) >? 1).
Proof.
  split; [reflexivity|]. split; [reflexivity|].
  apply (proj1 (hard_link_candidate_flag cfg_sample) (st_reg 1 2 2 4096 8) ChdirFail "a"
               (at_name "a")); reflexivity.
Defined.

(** The three cases the spec lists for C7, on the classifier itself. *)
Example hard_link_regular_two_links :
  has_flags (stat_to_dir 0 1 (dir_createstruct "a") (st_reg 1 2 2 4096 8)) FF_HLNKC = true.
Proof. reflexivity. Qed.

Example hard_link_regular_one_link :
  has_flags (stat_to_dir 0 1 (dir_createstruct "a") (st_reg 1 2 1 4096 8)) FF_HLNKC = false.
Proof. reflexivity. Qed.

Example hard_link_directory_three_links :
  has_flags (stat_to_dir 0 1 (dir_createstruct "b") (mkstat 1 3 16877 3 4096 8)) FF_HLNKC = false.
Proof. reflexivity. Qed.

Lemma other_filesystem_flag_witness :
  let s' := snd (dir_scan_process cfg_sample w_sample s0) in
  let d := mkdir "m" 5 2 0 0 (Z.lor FF_DIR FF_OTHFS) in
  In d (entries (emitted s0 s')) /\
  has_flags d FF_OTHFS = true /\
  dir_scan_smfs cfg_sample <> 0 /\ dev d <> curdev s'.
Proof.
  cbv zeta.
  assert (Hin : In (mkdir "m" 5 2 0 0 (Z.lor FF_DIR FF_OTHFS))
                   (entries (emitted s0 (snd (dir_scan_process cfg_sample w_sample s0))))).
  { rewrite w_sample_stream. cbn [entries In]. auto 10. }
  split; [exact Hin|]. split; [reflexivity|].
  destruct (other_filesystem_flag cfg_sample w_sample s0) as (_ & _ & _ & _ & H).
  apply (proj1 (H _ Hin)). reflexivity.
Defined.

Lemma stat_failure_is_error_leaf_witness :
  exclude_match cfg_sample (dir_curpath (at_name "gone")) = false /\
  exists d,
    emitted (at_name "gone")
            (snd (dir_scan_item cfg_sample (Obj None ChdirFail) (dir_createstruct "gone")
                                (at_name "gone")))
      = [item (Some d)] /\
    fst (dir_scan_item cfg_sample (Obj None ChdirFail) (dir_createstruct "gone")
                       (at_name "gone")) = 0 /\
    name d = "gone" /\
    has_flags d FF_ERR = true /\
    has_flags d FF_FILE = false /\
    has_flags d FF_DIR = false /\
    size d = 0 /\ asize d = 0.
Proof.
  split; [reflexivity|].
  apply (stat_failure_is_error_leaf cfg_sample ChdirFail "gone" (at_name "gone")).
  reflexivity.
Defined.

Lemma excluded_entry_is_single_leaf_witness :
  exclude_match cfg_sample (dir_curpath (at_name "x")) = true /\
  exists d,
    emitted (at_name "x")
            (snd (dir_scan_item cfg_sample (sub_root "x") (dir_createstruct "x")
                                (at_name "x")))
      = [item (Some d)] /\
    fst (dir_scan_item cfg_sample (sub_root "x") (dir_createstruct "x") (at_name "x")) = 0 /\
    name d = "x" /\
    has_flags d FF_EXL = true /\
    has_flags d FF_FILE = false /\
    has_flags d FF_DIR = false /\
    size d = 0 /\ asize d = 0.
Proof.
  split; [reflexivity|].
  apply (excluded_entry_is_single_leaf cfg_sample (sub_root "x") "x" (at_name "x")).
  reflexivity.
Defined.

(** C3, as the claim states it, fails: [x] is a directory whose path is
    excluded, yet it is reported by one [item] call that is not an open event,
    and no close event follows it; the next event opens its sibling [m]. *)
Lemma excluded_directory_not_closed_pair :
  let evs := emitted s0 (snd (dir_scan_process cfg_sample w_sample s0)) in
  exclude_match cfg_sample ["/r"; "x"] = true /\
  sub_root "x" = directory (st_dir 1 4) ["y"] sub_x /\
  S_ISDIR (st_mode (st_dir 1 4)) = true /\
  In (item (Some (mkdir "x" 0 0 0 0 FF_EXL))) evs /\
  is_open (item (Some (mkdir "x" 0 0 0 0 FF_EXL))) = false /\
  ~ (exists d pre post,
        name d = "x" /\ evs = pre ++ item (Some d) :: item None :: post).
Proof.
  cbv zeta. rewrite w_sample_stream.
  split; [reflexivity|]. split; [reflexivity|]. split; [reflexivity|].
  split; [cbn [In]; auto 10|]. split; [reflexivity|].
  intros (d & pre & post & Hn & He).
  repeat (destruct pre as [|? pre]; cbn [app] in He;
          [inversion He; subst; cbn in Hn; discriminate
          |injection He as _ He]).
  destruct pre; discriminate.
Qed.

Lemma collected_partial_stream_nonempty : Forall nonempty (collected partial_stream).
Proof.
  unfold collected. cbn.
  repeat (apply Forall_cons; [intro H; discriminate H|]). apply Forall_nil.
Qed.

Lemma root_listing_failure_is_not_fatal_witness :
  (w_opendir w_unreadable_root = None /\
   emitted s0 (snd (dir_scan_process cfg_sample w_unreadable_root s0))
     = [item (Some (root_entry cfg_sample w_unreadable_root)); item None; final 0]) /\
  (w_opendir w_partial_root = Some partial_stream /\
   listing_failed partial_stream = true /\
   Forall nonempty (collected partial_stream) /\
   exists kids,
     emitted s0 (snd (dir_scan_process cfg_sample w_partial_root s0))
       = item (Some (root_entry cfg_sample w_partial_root)) :: kids ++ [item None; final 0] /\
     has_flags (root_entry cfg_sample w_partial_root) FF_ERR = true /\
     trees any_entry (collected partial_stream) kids) /\
  (S_ISDIR (st_mode (root_fs w_partial_root)) = true /\
   is_open (item (Some (root_entry cfg_sample w_partial_root))) = true).
Proof.
  pose proof (root_listing_failure_is_not_fatal cfg_sample w_unreadable_root s0) as Hu.
  pose proof (root_listing_failure_is_not_fatal cfg_sample w_partial_root s0) as Hp.
  cbv zeta in Hu, Hp.
  destruct Hu as (Hu & _ & _). destruct Hp as (_ & Hp & Hd).
  split; [|split].
  - split; [reflexivity|]. exact (proj1 (Hu eq_refl)).
  - split; [reflexivity|]. split; [reflexivity|].
    split; [exact collected_partial_stream_nonempty|].
    destruct (Hp partial_stream eq_refl eq_refl collected_partial_stream_nonempty)
      as (kids & H1 & H2 & _ & H4 & _).
    exists kids. auto.
  - split; [reflexivity|]. exact (Hd eq_refl).
Defined.

Lemma partial_listing_is_not_fatal_witness :
  let s := mkstate 1 ["/r"] None [] in
  sub_partial "p" = Obj (Some (st_dir 1 3)) (ChdirOk (Some partial_stream) sub_p 0) /\
  listing_failed partial_stream = true /\
  exists d e_pre kids e_post,
    runs (dir_walk (fun cur => dir_scan_item cfg_sample (sub_partial cur))
                   (Some (["a"] ++ "p" :: ["b"]))) s 0
         (e_pre ++ item (Some d) :: kids ++ item None :: e_post) /\
    name d = "p" /\
    has_flags d FF_ERR = true /\
    has_flags d FF_DIR = true /\
    trees any_entry ["a"] e_pre /\
    trees any_entry (collected partial_stream) kids /\
    trees any_entry ["b"] e_post.
Proof.
  cbv zeta. split; [reflexivity|]. split; [reflexivity|].
  destruct (partial_listing_is_not_fatal cfg_sample) as (_ & _ & H & _).
  apply (H sub_partial ["a"] "p" ["b"] (st_dir 1 3) partial_stream sub_p
           (mkstate 1 ["/r"] None [])).
  - reflexivity.
  - reflexivity.
  - repeat (apply Forall_cons; [intro E; discriminate E|]). apply Forall_nil.
  - exact collected_partial_stream_nonempty.
  - reflexivity.
  - reflexivity.
  - reflexivity.
  - right. reflexivity.
Defined.

(** C1 on the failing input: [dir_scan_item] returns 0 for every item.
    Inside [e], chdir("..") fails and [dir_scan_recurse] returns 1, the fatal
    status; [dir_scan_item] returns 0 all the same, so the walk of /r goes
    on: the directory [f] is opened and closed after the failure, and
    [final] is called with 0. *)
Theorem chdir_back_failure_is_dropped :
  (forall cfg o nm s, fst (dir_scan_item cfg o (dir_createstruct nm) s) = 0) /\
  sub_no_return "e" = Obj (Some (st_dir 1 2)) stuck_in_e /\
  fst (dir_scan_recurse cfg0 stuck_in_e (mkdir "e" 2 1 4096 4096 FF_DIR) (at_name "e")) = 1 /\
  fst (dir_scan_item cfg0 (sub_no_return "e") (dir_createstruct "e") (at_name "e")) = 0 /\
  emitted s0 (snd (dir_scan_process cfg0 w_no_return s0)) =
    [item (Some (mkdir "/r" 1 1 4096 4096 FF_DIR));
     item (Some (mkdir "e" 2 1 4096 4096 FF_DIR));
     item (Some (mkdir "f" 5 1 4096 4096 FF_DIR));
     item None;
     item None;
     item (Some (mkdir "f" 5 1 4096 4096 FF_DIR));
     item None;
     item None;
     final 0].
Proof.
  split.
  - intros cfg o nm s.
    destruct (proj1 (walker_any cfg (curdev s)) o nm s eq_refl) as (evs & (H & _) & _).
    exact H.
  - repeat split; vm_compute; reflexivity.
Qed.

(** C4 on the failing input: whatever [path_real], [path_chdir] and
    lstat(".") answer, the scan reports a root entry, walks the listing and
    calls [final].  Here the requested root is a regular file and
    [path_chdir] fails, yet the scan runs: the directory the process happens
    to be in is listed and reported under the requested name, and [final] is
    called with 0. *)
Theorem root_not_a_directory_is_scanned :
  (forall cfg w s, exists kids,
      emitted s (snd (dir_scan_process cfg w s))
        = item (Some (root_entry cfg w)) :: kids ++ [item None; final 0]) /\
  w_path_chdir w_root_is_file < 0 /\
  emitted (init_state "/r/file")
          (snd (dir_scan_process cfg0 w_root_is_file (init_state "/r/file"))) =
    [item (Some (mkdir "/r/file" 1 1 4096 4096 FF_DIR));
     item (Some (mkdir "a" 2 1 4096 4096 FF_FILE));
     item None;
     final 0].
Proof.
  split; [|split; [reflexivity|vm_compute; reflexivity]].
  intros cfg w s. destruct (dir_scan_process_emitted cfg w s) as (kids & H & _).
  now exists kids.
Qed.

End SampleRuns.

(** * Further properties of the scanner *)

(** ** The lister *)

Lemma is_dot_or_dotdot_eqb (nm : string) :
  is_dot_or_dotdot nm = String.eqb nm "." || String.eqb nm "..".
Proof.
  destruct nm as [|c r]; [reflexivity|].
  destruct c as [[] [] [] [] [] [] [] []]; try reflexivity.
  destruct r as [|c' r']; [reflexivity|].
  destruct c' as [[] [] [] [] [] [] [] []]; try reflexivity.
  destruct r' as [|c'' r'']; reflexivity.
Qed.

(** X1: from a directory it could open, [dir_read] returns the names that
    readdir() handed out, in the same order and as often, leaving out exactly
    the names "." and "..": names that merely start with a dot are kept. *)
Theorem dir_read_drops_only_dot_names (ds : dirstream) (err : Z) :
  fst (dir_read (Some ds) err)
    = Some (filter (fun nm => negb (String.eqb nm "." || String.eqb nm ".."))
                   (rd_names ds)) /\
  forall buf, fst (dir_read (Some ds) err) = Some buf ->
    forall nm, In nm buf <-> In nm (rd_names ds) /\ nm <> "." /\ nm <> "..".
Proof.
  assert (H : fst (dir_read (Some ds) err)
              = Some (filter (fun nm => negb (String.eqb nm "." || String.eqb nm ".."))
                             (rd_names ds))).
  { rewrite dir_read_collected. unfold collected. f_equal.
    apply filter_ext. intros nm. now rewrite is_dot_or_dotdot_eqb. }
  split; [exact H|].
  intros buf Hbuf nm. rewrite H in Hbuf. injection Hbuf as <-.
  rewrite filter_In, negb_true_iff, orb_false_iff, !String.eqb_neq. tauto.
Qed.

(** X2: [dir_read] returns NULL exactly when the directory cannot be opened.
    It raises [*err] when the open, a read or the close failed and leaves it
    as it was otherwise; it never clears it. *)
Theorem dir_read_error_flag (od : option dirstream) (err : Z) :
  (fst (dir_read od err) = None <-> od = None) /\
  snd (dir_read od err)
    = match od with
      | None => 1
      | Some ds => if listing_failed ds then 1 else err
      end /\
  (err <> 0 -> snd (dir_read od err) <> 0).
Proof.
  destruct od as [ds|]; cbn [dir_read fst snd].
  - split; [split; discriminate|].
    unfold listing_failed.
    destruct (rd_errno ds =? 0), (closedir_rc ds <? 0); cbn [negb orb];
      (split; [reflexivity|intros H; try exact H; discriminate]).
  - split; [split; reflexivity|]. split; [reflexivity|discriminate].
Qed.

(** ** The classifier *)

Lemma stat_to_dir_ino smfs cd d fs : ino (stat_to_dir smfs cd d fs) = st_ino fs.
Proof.
  unfold stat_to_dir.
  repeat match goal with |- context [if ?c then _ else _] => destruct c end;
    reflexivity.
Qed.

(** The flags after [stat_to_dir] on an entry that carried none of the four
    flags it may set. *)
Lemma stat_to_dir_flag_values smfs cd d fs :
  has_flags d FF_FILE = false -> has_flags d FF_DIR = false ->
  has_flags d FF_HLNKC = false -> has_flags d FF_OTHFS = false ->
  let d' := stat_to_dir smfs cd d fs in
  has_flags d' FF_FILE = S_ISREG (st_mode fs) /\
  has_flags d' FF_DIR = S_ISDIR (st_mode fs) /\
  has_flags d' FF_HLNKC = negb (S_ISDIR (st_mode fs)) && (st_nlink fs >? 1) /\
  has_flags d' FF_OTHFS = negb (smfs =? 0) && negb (cd =? st_dev fs).
Proof.
  intros Hf Hd Hh Ho d'. subst d'.
  rewrite !stat_to_dir_has, Hf, Hd, Hh, Ho. mask_consts. cbn [negb orb].
  rewrite !andb_false_r, !andb_true_r. cbn [orb]. rewrite !orb_false_r. auto.
Qed.

Lemma stat_to_dir_err_exl smfs cd d fs :
  has_flags (stat_to_dir smfs cd d fs) FF_ERR = has_flags d FF_ERR /\
  has_flags (stat_to_dir smfs cd d fs) FF_EXL = has_flags d FF_EXL.
Proof.
  rewrite !stat_to_dir_has. mask_consts. cbn [negb].
  rewrite !andb_false_r, !orb_false_r. auto.
Qed.

(** X3: [stat_to_dir] only adds flags: a flag set on the entry it is given is
    still set afterwards.  As its comment says, it decides everything but
    [FF_ERR] and [FF_EXL]: these two are exactly as the caller left them, and
    so is the name. *)
Theorem stat_to_dir_keeps_caller_flags (smfs cd : Z) (d : dir) (fs : stat) :
  (forall g, has_flags d g = true -> has_flags (stat_to_dir smfs cd d fs) g = true) /\
  has_flags (stat_to_dir smfs cd d fs) FF_ERR = has_flags d FF_ERR /\
  has_flags (stat_to_dir smfs cd d fs) FF_EXL = has_flags d FF_EXL /\
  name (stat_to_dir smfs cd d fs) = name d.
Proof.
  split; [|split; [apply stat_to_dir_err_exl|split;
                   [apply stat_to_dir_err_exl|apply stat_to_dir_name]]].
  intros g Hg. rewrite stat_to_dir_has, Hg. reflexivity.
Qed.

Lemma entry_types_ok_stat_to_dir smfs cd d fs :
  has_flags d FF_FILE = false -> has_flags d FF_DIR = false ->
  has_flags d FF_HLNKC = false -> has_flags d FF_OTHFS = false ->
  has_flags d FF_EXL = false ->
  entry_types_ok (stat_to_dir smfs cd d fs).
Proof.
  intros Hf Hd Hh Ho Hx.
  destruct (stat_to_dir_flag_values smfs cd d fs Hf Hd Hh Ho) as (Ef & Ed & Eh & _).
  destruct (stat_to_dir_err_exl smfs cd d fs) as (_ & Ex).
  unfold entry_types_ok. rewrite Ef, Ed, Eh, Ex, Hx.
  split; [apply S_ISREG_not_DIR|]. split; [|discriminate].
  destruct (S_ISDIR (st_mode fs)); [discriminate|reflexivity].
Qed.

Lemma entry_types_ok_prepared cfg cd p lstat_res nm :
  entry_types_ok (prepared_entry cfg cd p lstat_res (dir_createstruct nm)).
Proof.
  rewrite prepared_entry_fresh.
  destruct (illegal_name cfg nm), (exclude_match cfg p), lstat_res;
    try (unfold entry_types_ok; repeat split; intros; reflexivity || discriminate).
  apply entry_types_ok_stat_to_dir; reflexivity.
Qed.

Lemma entry_types_ok_error d : entry_types_ok d -> entry_types_ok (or_flags d FF_ERR).
Proof.
  unfold entry_types_ok. rewrite !has_flags_or_flags. mask_consts.
  cbn [negb]. rewrite !orb_false_r. auto.
Qed.

(** X4: every entry reported during a scan has consistent type flags: never
    both [FF_FILE] and [FF_DIR], never [FF_HLNKC] on a directory, and an
    excluded entry, which is not stat'ed, carries none of [FF_FILE],
    [FF_DIR], [FF_HLNKC] and [FF_OTHFS]. *)
Theorem reported_entry_types (cfg : config) (w : world) (s : state) (d : dir) :
  In d (entries (emitted s (snd (dir_scan_process cfg w s)))) ->
  (has_flags d FF_FILE = true -> has_flags d FF_DIR = false) /\
  (has_flags d FF_HLNKC = true -> has_flags d FF_DIR = false) /\
  (has_flags d FF_EXL = true ->
   has_flags d FF_FILE = false /\ has_flags d FF_DIR = false /\
   has_flags d FF_HLNKC = false /\ has_flags d FF_OTHFS = false).
Proof.
  intros Hin.
  destruct (dir_scan_process_runs cfg entry_types_ok w
              (entry_types_ok_prepared cfg _) entry_types_ok_error s)
    as (kids & _ & _ & Ho & Ht).
  unfold emitted in Hin. rewrite Ho, skipn_app, skipn_all, Nat.sub_diag in Hin.
  cbn [app skipn entries] in Hin. rewrite entries_app in Hin.
  destruct Hin as [<-|Hin].
  - apply entry_types_ok_stat_to_dir;
      destruct (negb (snd (dir_read (w_opendir w) 0) =? 0)); reflexivity.
  - apply in_app_or in Hin. destruct Hin as [Hin|Hin]; [|contradiction Hin].
    pose proof (trees_entries _ _ _ Ht) as Hall.
    rewrite Forall_forall in Hall. exact (Hall _ Hin).
Qed.

(** ** One item, by kind *)

(** The state [dir_scan_item] ends in, by the branch it takes. *)
Lemma dir_scan_item_state cfg lstat_res cd d0 s :
  let d := prepared_entry cfg (curdev s) (dir_curpath s) lstat_res d0 in
  let s1 := snd (dir_scan_item_prepare cfg lstat_res d0 s) in
  snd (dir_scan_item cfg (Obj lstat_res cd) d0 s) =
    if has_flags d FF_DIR && negb (has_flags d (Z.lor (Z.lor FF_ERR FF_EXL) FF_OTHFS))
    then snd (dir_scan_recurse cfg cd d s1)
    else if has_flags d FF_DIR
    then snd (dir_output_item None (snd (dir_output_item (Some d) s1)))
    else snd (dir_output_item (Some d) s1).
Proof.
  intros d s1. destruct (prepare_runs cfg lstat_res d0 s) as (Hd & _). fold d in Hd.
  subst s1. cbn [dir_scan_item]. unfold bind at 1.
  destruct (dir_scan_item_prepare cfg lstat_res d0 s) as [d1 s1].
  cbn [fst snd] in *. subst d1. unfold bind, ret.
  destruct (has_flags d FF_DIR);
    [destruct (has_flags d (Z.lor (Z.lor FF_ERR FF_EXL) FF_OTHFS))|];
    cbn [andb negb].
  - reflexivity.
  - destruct (dir_scan_recurse cfg cd d s1). reflexivity.
  - reflexivity.
Qed.

(** What [dir_scan_item_prepare] leaves in the last-error slot. *)
Lemma prepare_lasterr cfg lstat_res nm s :
  lasterr (snd (dir_scan_item_prepare cfg lstat_res (dir_createstruct nm) s)) =
    if illegal_name cfg nm || (negb (exclude_match cfg (dir_curpath s)) && is_null lstat_res)
    then Some (dir_curpath s) else lasterr s.
Proof.
  unfold dir_scan_item_prepare, illegal_name, bind, ret, get_curpath, get_curdev,
    dir_setlasterr.
  cbn [name dir_createstruct].
  destruct (CYGWIN cfg && (strchr nm "/" || strchr nm "\"));
    cbn [fst snd dir_curpath curdev lasterr];
    destruct (exclude_match cfg (dir_curpath s)), lstat_res; reflexivity.
Qed.


Lemma has_flags_prepared_dir cfg cd p lstat_res nm :
  has_flags (prepared_entry cfg cd p lstat_res (dir_createstruct nm)) FF_DIR =
    match lstat_res with
    | Some st => negb (illegal_name cfg nm) && negb (exclude_match cfg p)
                 && S_ISDIR (st_mode st)
    | None => false
    end.
Proof.
  rewrite prepared_entry_fresh.
  destruct (illegal_name cfg nm), (exclude_match cfg p), lstat_res; try reflexivity.
  cbn [negb andb].
  now destruct (stat_to_dir_flag_values (dir_scan_smfs cfg) cd (dir_createstruct nm) s
                  eq_refl eq_refl eq_refl eq_refl) as (_ & -> & _).
Qed.


(** X6: under the same-filesystem policy, a directory on another device than
    the root's is not entered, whatever chdir() into it would do: it is
    reported as an open event with [FF_DIR] and [FF_OTHFS], its identity from
    lstat() and zero sizes, directly followed by its close event. *)
Theorem other_filesystem_directory_not_entered (cfg : config) (st : stat)
        (cd : chdir_res) (nm : string) (s : state) :
  exclude_match cfg (dir_curpath s) = false ->
  illegal_name cfg nm = false ->
  S_ISDIR (st_mode st) = true ->
  dir_scan_smfs cfg <> 0 ->
  st_dev st <> curdev s ->
  exists d,
    emitted s (snd (dir_scan_item cfg (Obj (Some st) cd) (dir_createstruct nm) s))
      = [item (Some d); item None] /\
    fst (dir_scan_item cfg (Obj (Some st) cd) (dir_createstruct nm) s) = 0 /\
    name d = nm /\ ino d = st_ino st /\ dev d = st_dev st /\
    has_flags d FF_DIR = true /\ has_flags d FF_OTHFS = true /\
    has_flags d FF_ERR = false /\
    size d = 0 /\ asize d = 0.
Proof.
  intros Hex Hill Hdir Hsm Hdev.
  pose proof (dir_scan_item_dispatch cfg (Some st) cd (dir_createstruct nm) s) as H.
  cbv zeta in H. rewrite prepared_entry_fresh, Hex, Hill in H.
  set (d := stat_to_dir _ _ _ _) in *.
  destruct (stat_to_dir_flag_values (dir_scan_smfs cfg) (curdev s) (dir_createstruct nm) st
              eq_refl eq_refl eq_refl eq_refl) as (_ & Ed & _ & Eo).
  fold d in Ed, Eo. rewrite Hdir in Ed.
  assert (Eo' : has_flags d FF_OTHFS = true).
  { rewrite Eo. apply Z.eqb_neq in Hsm. rewrite Hsm.
    assert (Hne : (curdev s =? st_dev st) = false) by (apply Z.eqb_neq; congruence).
    now rewrite Hne. }
  rewrite Ed, has_flags_mask_lor, Eo', orb_true_r in H. cbn [andb negb] in H.
  exists d. rewrite (runs_emitted _ _ _ _ H). destruct H as (Hr & _).
  pose proof (stat_to_dir_sizes (dir_scan_smfs cfg) (curdev s) (dir_createstruct nm) st)
    as Hsz.
  cbv zeta in Hsz. fold d in Hsz. rewrite has_flags_mask_lor, Eo' in Hsz.
  cbn [orb] in Hsz.
  destruct (stat_to_dir_err_exl (dir_scan_smfs cfg) (curdev s) (dir_createstruct nm) st)
    as (Ee & _).
  fold d in Ee.
  subst d. rewrite stat_to_dir_name, stat_to_dir_ino, stat_to_dir_dev.
  repeat split; auto; apply Hsz.
Qed.

(** X7: an object that lstat() reports as anything but a directory (a
    regular file, a symbolic link, a device) is reported by exactly one
    [item] call and no chdir() into it is attempted: the outcome does not
    depend on what chdir() would do. *)
Theorem non_directory_is_leaf (cfg : config) (st : stat) (cd : chdir_res)
        (nm : string) (s : state) :
  S_ISDIR (st_mode st) = false ->
  exists d,
    emitted s (snd (dir_scan_item cfg (Obj (Some st) cd) (dir_createstruct nm) s))
      = [item (Some d)] /\
    fst (dir_scan_item cfg (Obj (Some st) cd) (dir_createstruct nm) s) = 0 /\
    name d = nm /\
    has_flags d FF_DIR = false /\
    dir_scan_item cfg (Obj (Some st) cd) (dir_createstruct nm) s
      = dir_scan_item cfg (Obj (Some st) ChdirFail) (dir_createstruct nm) s.
Proof.
  intros Hdir.
  assert (Hd : has_flags (prepared_entry cfg (curdev s) (dir_curpath s) (Some st)
                                         (dir_createstruct nm)) FF_DIR = false).
  { rewrite has_flags_prepared_dir, Hdir. apply andb_false_r. }
  pose proof (dir_scan_item_leaf cfg (Some st) cd (dir_createstruct nm) s Hd) as H.
  pose proof (dir_scan_item_leaf cfg (Some st) ChdirFail (dir_createstruct nm) s Hd) as H'.
  eexists. rewrite (runs_emitted _ _ _ _ H).
  split; [reflexivity|]. split; [apply H|]. split; [apply prepared_entry_name|].
  split; [exact Hd|].
  rewrite (surjective_pairing (dir_scan_item cfg (Obj (Some st) cd) _ s)).
  rewrite (surjective_pairing (dir_scan_item cfg (Obj (Some st) ChdirFail) _ s)).
  pose proof (dir_scan_item_state cfg (Some st) cd (dir_createstruct nm) s) as E.
  pose proof (dir_scan_item_state cfg (Some st) ChdirFail (dir_createstruct nm) s) as E'.
  cbv zeta in E, E'. rewrite Hd in E, E'. cbn [andb] in E, E'.
  rewrite E, E'. destruct H as (-> & _). destruct H' as (-> & _). reflexivity.
Qed.

(** Subtrees for no name at all: no event. *)
Lemma trees_no_names Q evs : trees Q [] evs -> evs = [].
Proof. intros H. inversion H. reflexivity. Qed.

(** The names at depth 0 of a sequence of subtrees are the names the
    subtrees stand for, in order; nothing inside a directory counts. *)
Lemma trees_top_names Q names evs :
  trees Q names evs ->
  forall rest,
    top_names (evs ++ rest) 0 = names ++ top_names rest 0 /\
    forall depth, top_names (evs ++ rest) (S depth) = top_names rest (S depth).
Proof.
  induction 1 as [|d names evs Hq Hd _ IH|d kn kids names evs Hq Hd _ IHk _ IH];
    intros rest.
  - split; reflexivity.
  - cbn [app top_names]. rewrite Hd. destruct (IH rest) as [IH0 IHS].
    split; [now rewrite IH0|intros depth; apply IHS].
  - cbn [app top_names]. rewrite Hd, <- !app_assoc.
    destruct (IH rest) as [IH0 IHS]. split.
    + rewrite (proj2 (IHk _)). cbn [app top_names Nat.pred]. now rewrite IH0.
    + intros depth. rewrite (proj2 (IHk _)). cbn [app top_names Nat.pred]. apply IHS.
Qed.

(** X8: a directory that lstat() reports on the scanned filesystem and whose
    listing succeeds is reported as an open event without [FF_ERR], then one
    subtree for each collected name, in listing order, then its close event;
    an empty directory gives just the open and the close event.  With the
    same-filesystem policy off this holds on any device. *)
Theorem entered_directory_stream (cfg : config) (st : stat) (ds : dirstream)
        (sub : string -> fsobj) (up : Z) (nm : string) (s : state) :
  exclude_match cfg (dir_curpath s) = false ->
  illegal_name cfg nm = false ->
  S_ISDIR (st_mode st) = true ->
  dir_scan_smfs cfg = 0 \/ st_dev st = curdev s ->
  listing_failed ds = false ->
  Forall nonempty (collected ds) ->
  let o := Obj (Some st) (ChdirOk (Some ds) sub up) in
  let d := stat_to_dir (dir_scan_smfs cfg) (curdev s) (dir_createstruct nm) st in
  exists kids,
    emitted s (snd (dir_scan_item cfg o (dir_createstruct nm) s))
      = item (Some d) :: kids ++ [item None] /\
    fst (dir_scan_item cfg o (dir_createstruct nm) s) = 0 /\
    has_flags d FF_DIR = true /\ has_flags d FF_ERR = false /\
    trees any_entry (collected ds) kids /\
    top_names kids 0 = collected ds /\
    (collected ds = [] -> kids = []).
Proof.
  intros Hex Hill Hdir Hdev Hok Hne o d. subst o.
  pose proof (dir_scan_item_dispatch cfg (Some st) (ChdirOk (Some ds) sub up)
                (dir_createstruct nm) s) as Hdisp.
  cbv zeta in Hdisp. rewrite prepared_entry_fresh, Hex, Hill in Hdisp. fold d in Hdisp.
  destruct (entered_directory_flags cfg (curdev s) st nm Hdir Hdev) as [Hfd Hfm].
  fold d in Hfd, Hfm. rewrite Hfd, Hfm in Hdisp. cbn [andb negb] in Hdisp.
  destruct (prepare_state cfg (Some st) (dir_createstruct nm) s) as (Hd1 & _).
  destruct (proj2 (walker_any cfg (curdev s)) (ChdirOk (Some ds) sub up) d _ Hd1)
    as (kids & Hrec & Htk).
  rewrite Hok in Hrec.
  rewrite dir_read_loop_spec in Htk. cbn [app] in Htk. fold (collected ds) in Htk.
  rewrite (walked_nonempty _ Hne) in Htk.
  pose proof (Hdisp _ _ Hrec) as Hit.
  exists kids. rewrite (runs_emitted _ _ _ _ Hit).
  split; [reflexivity|]. split; [apply Hit|]. split; [exact Hfd|].
  split; [|split; [exact Htk|split]].
  - rewrite !has_flags_mask_lor in Hfm.
    destruct (has_flags d FF_ERR); [discriminate|reflexivity].
  - pose proof (proj1 (trees_top_names _ _ _ Htk [])) as Ht.
    rewrite !app_nil_r in Ht. exact Ht.
  - intros E. rewrite E in Htk. exact (trees_no_names _ _ Htk).
Qed.


(** X10: [dir_scan_recurse] returns 1 exactly when it entered the directory
    and the chdir("..") back failed.  A chdir() into the directory that
    fails, a listing that cannot be opened or read, and whatever happens
    below the directory never make it return non-zero. *)
Theorem dir_scan_recurse_status (cfg : config) (cd : chdir_res) (d : dir) (s : state) :
  fst (dir_scan_recurse cfg cd d s) =
    match cd with
    | ChdirFail => 0
    | ChdirOk _ _ up => if up =? 0 then 0 else 1
    end.
Proof.
  pose proof (proj2 (walker_any cfg (curdev s)) cd d s eq_refl) as H.
  destruct cd as [|[ds|] sub up].
  - apply H.
  - destruct H as (kids & (-> & _) & _). now destruct (up =? 0).
  - destruct H as (-> & _). now destruct (up =? 0).
Qed.

(** X11: for an item that is not entered (lstat() failed, or reported no
    directory), the last-error slot receives the current path when the name
    is illegal on Cygwin or when lstat() was called and failed, and is left
    untouched otherwise: excluding an entry or reporting a file records no
    error. *)
Theorem last_error_of_leaf_item (cfg : config) (lstat_res : option stat)
        (cd : chdir_res) (nm : string) (s : state) :
  (forall st, lstat_res = Some st -> S_ISDIR (st_mode st) = false) ->
  lasterr (snd (dir_scan_item cfg (Obj lstat_res cd) (dir_createstruct nm) s)) =
    if illegal_name cfg nm
       || (negb (exclude_match cfg (dir_curpath s)) && is_null lstat_res)
    then Some (dir_curpath s)
    else lasterr s.
Proof.
  intros Hnd.
  pose proof (dir_scan_item_state cfg lstat_res cd (dir_createstruct nm) s) as Hst.
  cbv zeta in Hst. rewrite has_flags_prepared_dir in Hst.
  assert (E : match lstat_res with
              | Some st => negb (illegal_name cfg nm)
                           && negb (exclude_match cfg (dir_curpath s))
                           && S_ISDIR (st_mode st)
              | None => false
              end = false).
  { destruct lstat_res as [st|]; [|reflexivity].
    rewrite (Hnd st eq_refl). apply andb_false_r. }
  rewrite E in Hst. cbn [andb] in Hst. rewrite Hst.
  cbn [dir_output_item snd lasterr]. apply prepare_lasterr.
Qed.

Lemma strchr_In (str : string) (c : ascii) :
  strchr str c = true <-> In c (list_ascii_of_string str).
Proof.
  induction str as [|a str IH]; simpl; [split; [discriminate|contradiction]|].
  destruct (Ascii.eqb_spec a c) as [->|Hne].
  - split; auto.
  - rewrite IH. split; [auto|intros [H|H]; [contradiction|exact H]].
Qed.

(** X12: on a Cygwin build, a name that contains a slash or a backslash is
    flagged without any system call being consulted: whatever the object is,
    it is reported by one [item] call with [FF_ERR], no type, no identity and
    zero sizes, and the current path is recorded as the last error.  On other
    builds no name is illegal. *)
Theorem cygwin_illegal_name_is_error_leaf (cfg : config) (o : fsobj)
        (nm : string) (s : state) :
  (CYGWIN cfg = false -> illegal_name cfg nm = false) /\
  (CYGWIN cfg = true ->
   In "/"%char (list_ascii_of_string nm) \/ In "\"%char (list_ascii_of_string nm) ->
   exists d,
     emitted s (snd (dir_scan_item cfg o (dir_createstruct nm) s)) = [item (Some d)] /\
     fst (dir_scan_item cfg o (dir_createstruct nm) s) = 0 /\
     name d = nm /\ ino d = 0 /\ dev d = 0 /\ size d = 0 /\ asize d = 0 /\
     has_flags d FF_ERR = true /\
     has_flags d FF_FILE = false /\ has_flags d FF_DIR = false /\
     has_flags d FF_EXL = exclude_match cfg (dir_curpath s) /\
     lasterr (snd (dir_scan_item cfg o (dir_createstruct nm) s))
       = Some (dir_curpath s)).
Proof.
  split.
  - intros H. unfold illegal_name. now rewrite H.
  - intros Hcyg Hin.
    assert (Hill : illegal_name cfg nm = true).
    { unfold illegal_name. rewrite Hcyg. cbn [andb]. apply orb_true_iff.
      destruct Hin as [H|H]; [left|right]; now apply strchr_In. }
    destruct o as [lst cd].
    pose proof (dir_scan_item_leaf cfg lst cd (dir_createstruct nm) s) as H.
    pose proof (dir_scan_item_state cfg lst cd (dir_createstruct nm) s) as Hst.
    cbv zeta in H, Hst. rewrite prepared_entry_fresh, Hill in H, Hst.
    assert (Hl : lasterr (snd (dir_scan_item_prepare cfg lst (dir_createstruct nm) s))
                 = Some (dir_curpath s))
      by (rewrite prepare_lasterr, Hill; reflexivity).
    destruct (exclude_match cfg (dir_curpath s)); specialize (H eq_refl);
      cbn [has_flags flags andb Z.land Z.eqb negb] in Hst;
      eexists; rewrite (runs_emitted _ _ _ _ H); destruct H as (Hr & _);
      (repeat split; auto); rewrite Hst; exact Hl.
Qed.

(** ** Walks and whole scans *)

(** X13: [dir_walk] handles the names of the buffer in the order [dir_read]
    stored them, each one once: the entries it reports at the top level carry
    exactly these names, in this order, everything else lies inside the
    directories among them.  It returns 0; a NULL buffer gives no event.  The
    loop takes an empty name for the end of the buffer. *)
Theorem dir_walk_reports_names_in_order (cfg : config) (sub : string -> fsobj)
        (dir : option (list string)) (s : state) :
  let r := dir_walk (fun cur => dir_scan_item cfg (sub cur)) dir s in
  fst r = 0 /\
  top_names (emitted s (snd r)) 0
    = match dir with Some buf => walked buf | None => [] end /\
  (dir = None -> emitted s (snd r) = []) /\
  (forall buf, dir = Some buf -> Forall nonempty buf ->
               top_names (emitted s (snd r)) 0 = buf).
Proof.
  cbv zeta.
  destruct (dir_walk_trees (curdev s) any_entry
              (fun cur => dir_scan_item cfg (sub cur))
              (fun nm => proj1 (walker_any cfg (curdev s)) (sub nm) nm)
              dir s eq_refl) as (evs & Hr & Ht).
  rewrite (runs_emitted _ _ _ _ Hr).
  pose proof (proj1 (trees_top_names _ _ _ Ht [])) as Hn. rewrite !app_nil_r in Hn.
  split; [apply Hr|]. split; [exact Hn|]. split.
  - intros ->. exact (trees_no_names _ _ Ht).
  - intros buf -> Hne. rewrite Hn. now apply walked_nonempty.
Qed.

(** X14: [dir_walk] and everything below it leave the current path and the
    recorded root device as they found them, on every path through the
    recursion: each [dir_curpath_enter] is undone by its [dir_curpath_leave].
    The calls already received by [dir_output] are only ever added to. *)
Theorem dir_walk_restores_path (cfg : config) (sub : string -> fsobj)
        (dir : option (list string)) (s : state) :
  let s' := snd (dir_walk (fun cur => dir_scan_item cfg (sub cur)) dir s) in
  dir_curpath s' = dir_curpath s /\
  curdev s' = curdev s /\
  output s' = output s ++ emitted s s'.
Proof.
  cbv zeta.
  destruct (dir_walk_trees (curdev s) any_entry
              (fun cur => dir_scan_item cfg (sub cur))
              (fun nm => proj1 (walker_any cfg (curdev s)) (sub nm) nm)
              dir s eq_refl) as (evs & Hr & _).
  rewrite (runs_emitted _ _ _ _ Hr). destruct Hr as (_ & Hd & Hp & Ho). auto.
Qed.

Lemma dir_scan_process_curpath cfg w s :
  dir_curpath (snd (dir_scan_process cfg w s))
    = match w_path_real w with Some r => [r] | None => [] end.
Proof.
  unfold dir_scan_process.
  destruct (dir_read (w_opendir w) 0) as [dir fail].
  rewrite !noop_if.
  set (fs := match w_lstat w with Some st => st | None => w_fs_uninit w end).
  unfold bind, ret, dir_curpath_set, set_curdev, get_curpath, get_curdev,
    dir_output_item, dir_output_final.
  cbn [fst snd curdev dir_curpath lasterr output].
  set (d' := stat_to_dir _ _ _ _).
  set (s1 := mkstate (st_dev fs)
                     (match w_path_real w with Some r => [r] | None => [] end)
                     (lasterr s) (output s ++ [item (Some d')])).
  destruct (dir_walk_trees (curdev s1) any_entry
              (fun cur => dir_scan_item cfg (w_sub w cur))
              (fun nm => proj1 (walker_any cfg (curdev s1)) (w_sub w nm) nm)
              dir s1 eq_refl) as (kids & (_ & _ & Hp & _) & _).
  destruct (dir_walk _ dir s1) as [r s2]. cbn [fst snd dir_curpath] in *.
  exact Hp.
Qed.


(** X16: [dir_scan_process] calls [dir_output.final] exactly once, as its
    last call and with 0, and returns what [final] returned.  When it
    returns, the current path is the resolved root and [curdev] the device
    of the root. *)
Theorem dir_scan_process_result (cfg : config) (w : world) (s : state) :
  let r := dir_scan_process cfg w s in
  fst r = output_final cfg 0 /\
  (exists pre, emitted s (snd r) = pre ++ [final 0] /\ finals pre = []) /\
  curdev (snd r) = st_dev (root_fs w) /\
  (forall p, w_path_real w = Some p -> dir_curpath (snd r) = [p]).
Proof.
  cbv zeta.
  destruct (dir_scan_process_runs cfg any_entry w (fun _ _ _ => I) (fun _ _ => I) s)
    as (kids & Hr & Hcd & Ho & Ht).
  split; [exact Hr|]. split; [|split; [exact Hcd|]].
  - exists (item (Some (root_entry cfg w)) :: kids ++ [item None]).
    unfold emitted. rewrite Ho, skipn_app, skipn_all, Nat.sub_diag. cbn [skipn app].
    split; [now rewrite <- app_assoc|].
    cbn [finals]. rewrite finals_app, (trees_finals _ _ _ Ht). reflexivity.
  - intros p Hp. now rewrite dir_scan_process_curpath, Hp.
Qed.

(** X17: the exclusion matcher is asked about the current path extended by
    the name being handled, not about the directory being walked: a name
    whose extended path matches is reported as an excluded leaf, and the walk
    goes on with the names after it. *)
Theorem dir_walk_excludes_by_entered_path (cfg : config) (sub : string -> fsobj)
        (nm : string) (rest : list string) (s : state) :
  nm <> EmptyString ->
  illegal_name cfg nm = false ->
  exclude_match cfg (dir_curpath s ++ [nm]) = true ->
  exists evs,
    emitted s (snd (dir_walk (fun cur => dir_scan_item cfg (sub cur))
                             (Some (nm :: rest)) s))
      = item (Some (mkdir nm 0 0 0 0 FF_EXL)) :: evs /\
    top_names evs 0 = walked rest.
Proof.
  intros Hnm Hill Hex.
  destruct nm as [|c nm']; [now elim Hnm|].
  set (nm := String c nm') in *.
  set (scan := fun cur => dir_scan_item cfg (sub cur)).
  set (s1 := snd (dir_curpath_enter nm s)).
  assert (Hit : runs (scan nm (dir_createstruct nm)) s1 0
                     [item (Some (mkdir nm 0 0 0 0 FF_EXL))]).
  { unfold scan. destruct (sub nm) as [lst cd].
    pose proof (dir_scan_item_leaf cfg lst cd (dir_createstruct nm) s1) as H.
    cbv zeta in H. rewrite prepared_entry_fresh, Hill in H.
    change (dir_curpath s1) with (dir_curpath s ++ [nm]) in H. rewrite Hex in H.
    exact (H eq_refl). }
  set (s3 := snd (dir_curpath_leave (snd (scan nm (dir_createstruct nm) s1)))).
  assert (Hitem : item_ok (curdev s3) any_entry scan).
  { intros n s' Hs'. apply (proj1 (walker_any cfg (curdev s3)) (sub n) n s' Hs'). }
  destruct (dir_walk_loop_trees _ _ scan Hitem rest s3 eq_refl) as (evs & Hr & Ht).
  exists evs. split.
  - cbn [dir_walk].
    pose proof (dir_walk_loop_step scan c nm' rest s _ _ Hit Hr) as H.
    exact (runs_emitted _ _ _ _ H).
  - pose proof (proj1 (trees_top_names _ _ _ Ht [])) as Hn.
    now rewrite !app_nil_r in Hn.
Qed.

(** ** The further properties on sample filesystems *)

Module ExtraRuns.
Import Samples.

Lemma reported_entry_types_witness :
  let d := mkdir "x" 0 0 0 0 FF_EXL in
  In d (entries (emitted s0 (snd (dir_scan_process cfg_sample w_sample s0)))) /\
  has_flags d FF_EXL = true /\
  has_flags d FF_FILE = false /\ has_flags d FF_DIR = false /\
  has_flags d FF_HLNKC = false /\ has_flags d FF_OTHFS = false.
Proof.
  cbv zeta.
  assert (Hin : In (mkdir "x" 0 0 0 0 FF_EXL)
                   (entries (emitted s0 (snd (dir_scan_process cfg_sample w_sample s0))))).
  { rewrite SampleRuns.w_sample_stream. cbn [entries In]. auto 10. }
  split; [exact Hin|]. split; [reflexivity|].
  destruct (reported_entry_types cfg_sample w_sample s0 _ Hin) as (_ & _ & H).
  exact (H eq_refl).
Defined.


Lemma other_filesystem_directory_not_entered_witness :
  let st := st_dir 2 5 in
  let cd := ChdirOk (Some (mkdirstream ["."; ".."; "k"] 0 0)) sub_m 0 in
  dir_scan_smfs cfg_sample <> 0 /\ st_dev st <> curdev (at_name "m") /\
  exists d,
    emitted (at_name "m")
            (snd (dir_scan_item cfg_sample (Obj (Some st) cd) (dir_createstruct "m")
                                (at_name "m")))
      = [item (Some d); item None] /\
    has_flags d FF_DIR = true /\ has_flags d FF_OTHFS = true /\
    size d = 0 /\ asize d = 0.
Proof.
  cbv zeta. split; [discriminate|]. split; [discriminate|].
  destruct (other_filesystem_directory_not_entered cfg_sample (st_dir 2 5)
              (ChdirOk (Some (mkdirstream ["."; ".."; "k"] 0 0)) sub_m 0) "m" (at_name "m")
              eq_refl eq_refl eq_refl)
    as (d & H1 & _ & _ & _ & _ & H6 & H7 & _ & H9 & H10);
    [discriminate|discriminate|].
  exists d. auto.
Defined.

Lemma non_directory_is_leaf_witness :
  S_ISDIR (st_mode (st_lnk 1 7)) = false /\
  exists d,
    emitted (at_name "l")
            (snd (dir_scan_item cfg_sample (Obj (Some (st_lnk 1 7)) ChdirFail)
                                (dir_createstruct "l") (at_name "l")))
      = [item (Some d)] /\
    name d = "l" /\ has_flags d FF_DIR = false.
Proof.
  split; [reflexivity|].
  destruct (non_directory_is_leaf cfg_sample (st_lnk 1 7) ChdirFail "l" (at_name "l")
              eq_refl) as (d & H1 & _ & H3 & H4 & _).
  exists d. auto.
Defined.

Lemma collected_whole_stream_nonempty : Forall nonempty (collected whole_stream).
Proof.
  unfold collected. cbn.
  repeat (apply Forall_cons; [intro H; discriminate H|]). apply Forall_nil.
Qed.

Lemma entered_directory_stream_witness :
  let o := Obj (Some (st_dir 1 3)) (ChdirOk (Some whole_stream) sub_p 0) in
  listing_failed whole_stream = false /\
  exists d kids,
    emitted (at_name "p") (snd (dir_scan_item cfg_sample o (dir_createstruct "p")
                                              (at_name "p")))
      = item (Some d) :: kids ++ [item None] /\
    has_flags d FF_ERR = false /\
    top_names kids 0 = ["one"; "two"].
Proof.
  cbv zeta. split; [reflexivity|].
  destruct (entered_directory_stream cfg_sample (st_dir 1 3) whole_stream sub_p 0 "p"
              (at_name "p") eq_refl eq_refl eq_refl (or_intror eq_refl) eq_refl
              collected_whole_stream_nonempty)
    as (kids & H1 & _ & _ & H4 & _ & H6 & _).
  eexists _, kids. split; [exact H1|]. split; [exact H4|exact H6].
Defined.


Lemma last_error_of_leaf_item_witness :
  lasterr (snd (dir_scan_item cfg_sample (Obj None ChdirFail) (dir_createstruct "gone")
                              (at_name "gone")))
    = Some ["/r"; "gone"] /\
  lasterr (snd (dir_scan_item cfg_sample (Obj (Some (st_reg 1 2 1 10 8)) ChdirFail)
                              (dir_createstruct "a") (at_name "a")))
    = None.
Proof.
  split.
  - apply (last_error_of_leaf_item cfg_sample None ChdirFail "gone" (at_name "gone")).
    intros st H. discriminate H.
  - apply (last_error_of_leaf_item cfg_sample (Some (st_reg 1 2 1 10 8)) ChdirFail "a"
                                   (at_name "a")).
    intros st H. injection H as <-. reflexivity.
Defined.

Lemma cygwin_illegal_name_is_error_leaf_witness :
  CYGWIN cfg_cygwin = true /\
  In "/"%char (list_ascii_of_string "a/b") /\
  exists d,
    emitted (at_name "a/b")
            (snd (dir_scan_item cfg_cygwin (file (st_reg 1 2 1 10 8))
                                (dir_createstruct "a/b") (at_name "a/b")))
      = [item (Some d)] /\
    has_flags d FF_ERR = true /\ has_flags d FF_FILE = false /\ size d = 0.
Proof.
  split; [reflexivity|].
  assert (Hin : In "/"%char (list_ascii_of_string "a/b")) by (cbn; auto).
  split; [exact Hin|].
  destruct (proj2 (cygwin_illegal_name_is_error_leaf cfg_cygwin
                     (file (st_reg 1 2 1 10 8)) "a/b" (at_name "a/b"))
                  eq_refl (or_introl Hin))
    as (d & H1 & _ & _ & _ & _ & H6 & _ & H8 & H9 & _).
  exists d. auto.
Defined.


Lemma dir_walk_excludes_by_entered_path_witness :
  "x" <> EmptyString /\
  exclude_match cfg_sample (dir_curpath s0 ++ ["x"]) = true /\
  exclude_match cfg_sample (dir_curpath s0) = false /\
  exists evs,
    emitted s0 (snd (dir_walk (fun cur => dir_scan_item cfg_sample (sub_root cur))
                              (Some ["x"; "m"; "gone"]) s0))
      = item (Some (mkdir "x" 0 0 0 0 FF_EXL)) :: evs /\
    top_names evs 0 = ["m"; "gone"].
Proof.
  split; [discriminate|]. split; [reflexivity|]. split; [reflexivity|].
  apply (dir_walk_excludes_by_entered_path cfg_sample sub_root "x" ["m"; "gone"] s0);
    [discriminate|reflexivity|reflexivity].
Defined.

End ExtraRuns.
